(** * Prescribed-burn planning agent: model and verified properties

    A shallow embedding of [services/burn_agent.py] (class
    [PrescribedBurnAgent]) and of the Flask view of [app.py].

    Python values decoded from JSON are modelled by the inductive type
    [value]; a Python exception is a value of type [exn]; code that may raise
    runs in the error monad [result]; code that talks to the outside world
    (geocoder, HTTP) additionally threads the log of outbound calls.

    Modelling conventions, fixed once and used throughout:
    - text is ASCII: [lower], [split], [isdigit] and [int_of_digits] agree
      with Python's [str.lower], [str.split], [str.isdigit] and [int] on
      ASCII strings;
    - numbers: an [int] is a [Z]; a [float] is an IEEE 754 double, written
      as the rational it denotes, and float arithmetic rounds to the nearest
      double, a tie going to the even significand, as CPython does on its
      platforms; an [int] operand of a float operation is converted first
      and raises [OverflowError] when it is too large; NaN, the infinities
      and the sign of zero are not modelled, so a float result beyond the
      largest double is outside the model;
    - exception messages follow CPython 3.10. *)

From Stdlib Require Import ZArith QArith Qround Qpower Qabs List String Ascii Bool.
From Stdlib Require Import Lia Lqa.
From Stdlib Require Import DecimalString.
Import ListNotations.

Local Close Scope Q_scope.
Local Open Scope string_scope.
Local Open Scope list_scope.

(* ================================================================= *)
(** ** Python values *)

#[local] Set Warnings "-register-all".

Inductive value : Type :=
| VNone
| VBool (b : bool)
| VInt (z : Z)
| VFloat (q : Q)
| VStr (s : string)
| VList (l : list value)
| VDict (d : list (value * value)).

(** A dict keeps its insertion order, so it is an association list. *)
Definition dict := list (value * value).

(** [type(v).__name__] *)
Definition type_name (v : value) : string :=
  match v with
  | VNone => "NoneType"
  | VBool _ => "bool"
  | VInt _ => "int"
  | VFloat _ => "float"
  | VStr _ => "str"
  | VList _ => "list"
  | VDict _ => "dict"
  end.

(** The number a value denotes when it is an [int], a [float] or a [bool]
    ([bool] is a subclass of [int] in Python). *)
Definition num_of (v : value) : option Q :=
  match v with
  | VBool b => Some (if b then 1 else 0)%Q
  | VInt z => Some (inject_Z z)
  | VFloat q => Some q
  | _ => None
  end.

(** [bool(v)] *)
Definition truthy (v : value) : bool :=
  match v with
  | VNone => false
  | VBool b => b
  | VInt z => negb (z =? 0)%Z
  | VFloat q => negb (Qeq_bool q 0)
  | VStr s => negb (s =? "")
  | VList l => match l with [] => false | _ => true end
  | VDict d => match d with [] => false | _ => true end
  end.

(** [v is None] *)
Definition is_None (v : value) : bool :=
  match v with VNone => true | _ => false end.

(** [isinstance(v, dict)] *)
Definition isinstance_dict (v : value) : bool :=
  match v with VDict _ => true | _ => false end.

(** [isinstance(v, (int, float))] *)
Definition isinstance_int_float (v : value) : bool :=
  match v with VBool _ | VInt _ | VFloat _ => true | _ => false end.

(** [v == s] for a string literal [s] *)
Definition eq_str (v : value) (s : string) : bool :=
  match v with VStr s' => (s' =? s) | _ => false end.

(** Equality of dict keys: [==] on hashable scalars. *)
Definition key_eqb (a b : value) : bool :=
  match a, b with
  | VStr s, VStr t => (s =? t)
  | VNone, VNone => true
  | _, _ =>
      match num_of a, num_of b with
      | Some x, Some y => Qeq_bool x y
      | _, _ => false
      end
  end.

(** Whether a value can be a dict key. *)
Definition hashable (v : value) : bool :=
  match v with VList _ | VDict _ => false | _ => true end.

Fixpoint lookup {V} (d : list (value * V)) (k : value) : option V :=
  match d with
  | [] => None
  | (k', v) :: d' => if key_eqb k' k then Some v else lookup d' k
  end.

(** [d[k] = v]: an existing key keeps its place, a new one goes last. *)
Fixpoint store {V} (d : list (value * V)) (k : value) (v : V) : list (value * V) :=
  match d with
  | [] => [(k, v)]
  | (k', v') :: d' => if key_eqb k' k then (k', v) :: d' else (k', v') :: store d' k v
  end.

(** Lookup with a string-literal key. *)
Definition field (d : dict) (k : string) : option value := lookup d (VStr k).

(* ================================================================= *)
(** ** Exceptions and the error monad *)

Inductive exn_class : Type :=
| KeyError | IndexError | TypeError | AttributeError | ValueError
| OverflowError
| HTTPError
| OtherError (name : string).

(** An exception, of a subclass of [Exception]: its class and [str(e)]. *)
Record exn : Type := Raise { exn_type : exn_class; exn_str : string }.

Definition result (A : Type) : Type := (exn + A)%type.

Definition ret {A} (a : A) : result A := inr a.
Definition raise {A} (c : exn_class) (msg : string) : result A := inl (Raise c msg).

Definition bind {A B} (m : result A) (k : A -> result B) : result B :=
  match m with
  | inl e => inl e
  | inr a => k a
  end.

Declare Scope py_scope.
Delimit Scope py_scope with py.
Notation "x <- m ;; k" := (bind m (fun x => k))
  (at level 61, m at next level, right associativity) : py_scope.
Local Open Scope py_scope.

(** [try: body except Exception as e: handler(e)] *)
Definition try_except {A} (body : result A) (handler : exn -> A) : A :=
  match body with
  | inl e => handler e
  | inr a => a
  end.

(* ================================================================= *)
(** ** ASCII text *)

Definition is_upper (c : ascii) : bool :=
  let n := nat_of_ascii c in (65 <=? n)%nat && (n <=? 90)%nat.

Definition lower_char (c : ascii) : ascii :=
  if is_upper c then ascii_of_nat (nat_of_ascii c + 32) else c.

(** [s.lower()] *)
Fixpoint lower (s : string) : string :=
  match s with
  | EmptyString => EmptyString
  | String c s' => String (lower_char c) (lower s')
  end.

Fixpoint is_prefix (p s : string) : bool :=
  match p, s with
  | EmptyString, _ => true
  | String _ _, EmptyString => false
  | String a p', String b s' => Ascii.eqb a b && is_prefix p' s'
  end.

(** [sub in s] on strings *)
Fixpoint contains (sub s : string) : bool :=
  is_prefix sub s ||
  match s with
  | EmptyString => false
  | String _ s' => contains sub s'
  end.

(** [c.isspace()]: tab, LF, VT, FF, CR, FS, GS, RS, US and space. *)
Definition isspace (c : ascii) : bool :=
  let n := nat_of_ascii c in
  ((9 <=? n)%nat && (n <=? 13)%nat) || ((28 <=? n)%nat && (n <=? 32)%nat).

(** [c.isdigit()] *)
Definition isdigit (c : ascii) : bool :=
  let n := nat_of_ascii c in (48 <=? n)%nat && (n <=? 57)%nat.

(** [s.split()]: the maximal runs of non-whitespace characters.  [cur] is
    the token being read; [None] between tokens. *)
Fixpoint split_aux (s : string) (cur : option string) : list string :=
  match s with
  | EmptyString => match cur with None => [] | Some t => [t] end
  | String c s' =>
      if isspace c
      then match cur with
           | None => split_aux s' None
           | Some t => t :: split_aux s' None
           end
      else match cur with
           | None => split_aux s' (Some (String c EmptyString))
           | Some t => split_aux s' (Some (t ++ String c EmptyString)%string)
           end
  end.

Definition split (s : string) : list string := split_aux s None.

(** [''.join(filter(str.isdigit, s))] *)
Fixpoint filter_digits (s : string) : string :=
  match s with
  | EmptyString => EmptyString
  | String c s' => if isdigit c then String c (filter_digits s') else filter_digits s'
  end.

Fixpoint digits_value (s : string) (acc : Z) : Z :=
  match s with
  | EmptyString => acc
  | String c s' => digits_value s' (10 * acc + Z.of_nat (nat_of_ascii c - 48))%Z
  end.

(** [int(s)] for a string of digits; the empty string is refused. *)
Definition int_of_digits (s : string) : result Z :=
  match s with
  | EmptyString => raise ValueError "invalid literal for int() with base 10: ''"
  | _ => ret (digits_value s 0%Z)
  end.

Definition repr_nat (n : nat) : string := NilEmpty.string_of_uint (Nat.to_uint n).

(** The characters of a string, each as a one-character string. *)
Fixpoint chars (s : string) : list value :=
  match s with
  | EmptyString => []
  | String c s' => VStr (String c EmptyString) :: chars s'
  end.

(* ================================================================= *)
(** ** Dynamic operations on values *)

Definition quote (s : string) : string := ("'" ++ s ++ "'")%string.

(** The one-character string of a double quote. *)
Definition double_quote : string := String (ascii_of_nat 34) "".

Definition not_subscriptable {A} (v : value) : result A :=
  raise TypeError (quote (type_name v) ++ " object is not subscriptable")%string.

Definition no_attribute {A} (v : value) (attr : string) : result A :=
  raise AttributeError
    (quote (type_name v) ++ " object has no attribute " ++ quote attr)%string.

(** [v[k]] for a string literal [k] *)
Definition getitem (v : value) (k : string) : result value :=
  match v with
  | VDict d =>
      match field d k with
      | Some x => ret x
      | None => raise KeyError (quote k)
      end
  | VList _ => raise TypeError "list indices must be integers or slices, not str"
  | VStr _ => raise TypeError "string indices must be integers"
  | _ => not_subscriptable v
  end.

(** [v[i]] for an integer literal [i >= 0] *)
Definition getindex (v : value) (i : nat) : result value :=
  match v with
  | VList l =>
      match nth_error l i with
      | Some x => ret x
      | None => raise IndexError "list index out of range"
      end
  | VStr s =>
      match nth_error (chars s) i with
      | Some x => ret x
      | None => raise IndexError "string index out of range"
      end
  | VDict d =>
      match lookup d (VInt (Z.of_nat i)) with
      | Some x => ret x
      | None => raise KeyError (repr_nat i)
      end
  | _ => not_subscriptable v
  end.

(** [v[lo:hi]] for literals [0 <= lo <= hi] *)
Definition slice (v : value) (lo hi : nat) : result value :=
  match v with
  | VList l => ret (VList (firstn (hi - lo) (skipn lo l)))
  | VStr s => ret (VStr (substring lo (hi - lo) s))
  | VDict _ => raise TypeError "unhashable type: 'slice'"
  | _ => not_subscriptable v
  end.

(** The items a [for] loop over [v] visits. *)
Definition iter (v : value) : result (list value) :=
  match v with
  | VList l => ret l
  | VStr s => ret (chars s)
  | VDict d => ret (map fst d)
  | _ => raise TypeError (quote (type_name v) ++ " object is not iterable")%string
  end.

(** [v.get(k, default)] for a string literal [k] *)
Definition get (v : value) (k : string) (default : value) : result value :=
  match v with
  | VDict d => ret (match field d k with Some x => x | None => default end)
  | _ => no_attribute v "get"
  end.

(** [k in v] for a string literal [k] *)
Definition py_in (k : string) (v : value) : result bool :=
  match v with
  | VDict d => ret (match field d k with Some _ => true | None => false end)
  | VList l => ret (existsb (fun x => eq_str x k) l)
  | VStr s => ret (contains k s)
  | _ => raise TypeError
           ("argument of type " ++ quote (type_name v) ++ " is not iterable")%string
  end.

(** [v.lower()] *)
Definition str_lower (v : value) : result string :=
  match v with
  | VStr s => ret (lower s)
  | _ => no_attribute v "lower"
  end.

(** [v.split()] *)
Definition str_split (v : value) : result (list string) :=
  match v with
  | VStr s => ret (split s)
  | _ => no_attribute v "split"
  end.

Definition not_supported {A} (op : string) (v : value) : result A :=
  raise TypeError
    (quote op ++ " not supported between instances of " ++ quote (type_name v)
       ++ " and 'int'")%string.

(** [v > n] for an integer literal [n] *)
Definition gt_int (v : value) (n : Z) : result bool :=
  match num_of v with
  | Some q => ret (negb (Qle_bool q (inject_Z n)))
  | None => not_supported ">" v
  end.

(** [v < n] for an integer literal [n] *)
Definition lt_int (v : value) (n : Z) : result bool :=
  match num_of v with
  | Some q => ret (negb (Qle_bool (inject_Z n) q))
  | None => not_supported "<" v
  end.

(** A [for] loop that updates one variable. *)
Fixpoint for_each {S} (body : S -> value -> result S) (items : list value) (s : S)
  : result S :=
  match items with
  | [] => ret s
  | x :: rest => s' <- body s x ;; for_each body rest s'
  end.

(** [a == b] *)
Fixpoint py_eq (a b : value) {struct a} : bool :=
  match a, b with
  | VNone, VNone => true
  | VStr s, VStr t => (s =? t)
  | VList l, VList m =>
      (fix all2 (l m : list value) : bool :=
         match l, m with
         | [], [] => true
         | x :: l', y :: m' => py_eq x y && all2 l' m'
         | _, _ => false
         end) l m
  | VDict d, VDict e =>
      (List.length d =? List.length e)%nat &&
      (fix all (d : list (value * value)) : bool :=
         match d with
         | [] => true
         | (k, v) :: d' =>
             match lookup e k with Some w => py_eq v w | None => false end && all d'
         end) d
  | _, _ =>
      match num_of a, num_of b with
      | Some x, Some y => Qeq_bool x y
      | _, _ => false
      end
  end.

Definition Qltb (a b : Q) : bool := negb (Qle_bool b a).

Definition not_ordered {A} (op : string) (a b : value) : result A :=
  raise TypeError
    (quote op ++ " not supported between instances of " ++ quote (type_name a)
       ++ " and " ++ quote (type_name b))%string.

(** [a > b] when [gt] is [true], [a < b] otherwise: numbers by value,
    strings and lists lexicographically. *)
Fixpoint py_order (gt : bool) (a b : value) {struct a} : result bool :=
  match a, b with
  | VStr s, VStr t => ret (if gt then String.ltb t s else String.ltb s t)
  | VList l, VList m =>
      (fix go (l m : list value) : result bool :=
         match l, m with
         | [], [] => ret false
         | [], _ :: _ => ret (negb gt)
         | _ :: _, [] => ret gt
         | x :: l', y :: m' => if py_eq x y then go l' m' else py_order gt x y
         end) l m
  | _, _ =>
      match num_of a, num_of b with
      | Some x, Some y => ret (if gt then Qltb y x else Qltb x y)
      | _, _ => not_ordered (if gt then ">" else "<") a b
      end
  end.

(** [max(l)] when [gt] is [true], [min(l)] otherwise: the first item that
    no later one beats. *)
Definition py_extremum (gt : bool) (l : list value) : result value :=
  match l with
  | [] =>
      raise ValueError
        ((if gt then "max" else "min") ++ "() arg is an empty sequence")%string
  | x :: rest =>
      for_each (fun best item =>
                  better <- py_order gt item best ;;
                  ret (if better then item else best)) rest x
  end.

Definition is_float (v : value) : bool :=
  match v with VFloat _ => true | _ => false end.

Definition is_sequence (v : value) : bool :=
  match v with VStr _ | VList _ => true | _ => false end.

(** *** Floats

    The integer nearest to [y], a tie going to the even one. *)
Definition round_half_even (y : Q) : Z :=
  let f := Qfloor y in
  match (y - inject_Z f ?= 1 # 2)%Q with
  | Lt => f
  | Gt => (f + 1)%Z
  | Eq => if Z.odd f then (f + 1)%Z else f
  end.

(** [floor (log2 x)] for a positive [x]. *)
Definition ilog2 (x : Q) : Z :=
  let e := (Z.log2 (Qnum x) - Z.log2 (Zpos (Qden x)))%Z in
  if Qle_bool (2 ^ e) x then e else (e - 1)%Z.

(** The spacing of the doubles around [x]: 53 significant bits, and
    [2 ^ -1074] from the least normal double down. *)
Definition ulp (x : Q) : Q := (2 ^ Z.max (ilog2 (Qabs x) - 52) (-1074))%Q.

(** The double nearest to [x], a tie going to the even significand; a
    double is its own nearest double. *)
Definition double (x : Q) : Q :=
  if Qeq_bool x 0 then 0%Q
  else Qred (inject_Z (round_half_even (x / ulp x)) * ulp x)%Q.

(** The nearest double would be [2 ^ 1024] or beyond. *)
Definition too_large (x : Q) : bool :=
  negb (Qeq_bool x 0) && (1024 <=? ilog2 (Qabs (double x)))%Z.

(** The operand [v], of value [x], of a float operation, as a double: a
    float is one already, an [int] (or [bool]) is converted to the
    nearest double and refused when that is beyond the largest one. *)
Definition float_of (v : value) (x : Q) : result Q :=
  if is_float v then ret (double x)
  else if too_large x
       then raise OverflowError "int too large to convert to float"
       else ret (double x).

(** [a - b]: exact between ints, a float operation otherwise *)
Definition py_sub (a b : value) : result value :=
  match num_of a, num_of b with
  | Some x, Some y =>
      if is_float a || is_float b then
        x' <- float_of a x ;;
        y' <- float_of b y ;;
        ret (VFloat (double (x' - y')%Q))
      else ret (VInt (Qnum x - Qnum y)%Z)
  | _, _ =>
      raise TypeError
        ("unsupported operand type(s) for -: " ++ quote (type_name a) ++ " and "
           ++ quote (type_name b))%string
  end.

(** [a * c] for a float [c] *)
Definition mul_float (a : value) (c : Q) : result Q :=
  match num_of a with
  | Some x => x' <- float_of a x ;; ret (double (x' * c)%Q)
  | None =>
      if is_sequence a
      then raise TypeError "can't multiply sequence by non-int of type 'float'"
      else raise TypeError
             ("unsupported operand type(s) for *: " ++ quote (type_name a)
                ++ " and 'float'")%string
  end.

(** [round(x, 1)] for a float: the decimal with one digit after the point
    that is nearest to [x], a tie going to the even digit, read back as a
    double. *)
Definition round1 (x : Q) : Q :=
  double (round_half_even (double x * 10)%Q # 10).

(** [round(v, 1)]: an [int] is returned unchanged. *)
Definition py_round1 (v : value) : result value :=
  match v with
  | VFloat q => ret (VFloat (round1 q))
  | VInt z => ret (VInt z)
  | VBool b => ret (VInt (if b then 1 else 0))
  | _ =>
      raise TypeError
        ("type " ++ type_name v ++ " doesn't define __round__ method")%string
  end.

(* ================================================================= *)
(** * services/burn_agent.py *)

Module BurnAgent.

(* ================================================================= *)
(** ** Weather normalizer: [_get_weather_data], lines 71-136 *)

(** Lines 80-97: the normalized name of period [i], given the periods
    already normalized. *)
Definition normalized_name (i : nat) (original_name : value)
    (normalized_periods : list value) : result string :=
  match i with
  | O =>
      low <- str_lower original_name ;;
      if contains "night" low then ret "Tonight" else ret "Today"
  | S O =>
      p0 <- getindex (VList normalized_periods) 0 ;;
      n0 <- getitem p0 "name" ;;
      if eq_str n0 "Today" then ret "Tonight" else ret "Tomorrow"
  | _ =>
      p1 <- getindex (VList normalized_periods) 1 ;;
      n1 <- getitem p1 "name" ;;
      if eq_str n1 "Tonight" then ret "Tomorrow" else ret "Tomorrow Night"
  end.

(** [humidity_data.get('value')] when the value is a dict, else the value
    itself (lines 102-105 and 114-117). *)
Definition unwrap_humidity (humidity_data : value) : value :=
  match humidity_data with
  | VDict d => match field d "value" with Some x => x | None => VNone end
  | _ => humidity_data
  end.

(** Lines 100-105: the period's own humidity, [VNone] when it has none. *)
Definition own_humidity (p : value) : result value :=
  has <- py_in "relativeHumidity" p ;;
  if has then
    rh <- getitem p "relativeHumidity" ;;
    if truthy rh then ret (unwrap_humidity rh) else ret VNone
  else ret VNone.

(** Lines 111-119: the loop over the hourly slice; [humidity] is the loop's
    variable, the result is its value when the loop ends or breaks. *)
Fixpoint scan_hourly (hourlies : list value) (humidity : value) : result value :=
  match hourlies with
  | [] => ret humidity
  | hourly :: rest =>
      rh <- get hourly "relativeHumidity" VNone ;;
      if truthy rh then
        let humidity := unwrap_humidity rh in
        if negb (is_None humidity) then ret humidity
        else scan_hourly rest humidity
      else scan_hourly rest humidity
  end.

(** Lines 108-119. *)
Definition backfill_humidity (i : nat) (hourly_periods humidity : value)
  : result value :=
  if is_None humidity && truthy hourly_periods then
    let start_idx := i * 4 in
    window <- slice hourly_periods start_idx (start_idx + 4) ;;
    hourlies <- iter window ;;
    scan_hourly hourlies humidity
  else ret humidity.

(** Lines 77-131: one iteration of the loop, returning the appended dict. *)
Definition normalize_period (i : nat) (p hourly_periods : value)
    (normalized_periods : list value) : result value :=
  original_name <- getitem p "name" ;;
  normalized_name <- normalized_name i original_name normalized_periods ;;
  humidity <- own_humidity p ;;
  humidity <- backfill_humidity i hourly_periods humidity ;;
  temperature <- getitem p "temperature" ;;
  temperature_unit <- getitem p "temperatureUnit" ;;
  wind_speed <- getitem p "windSpeed" ;;
  wind_direction <- getitem p "windDirection" ;;
  short_forecast <- getitem p "shortForecast" ;;
  detailed_forecast <- getitem p "detailedForecast" ;;
  ret (VDict
         [ (VStr "name", VStr normalized_name);
           (VStr "original_name", original_name);
           (VStr "temperature", temperature);
           (VStr "temperature_unit", temperature_unit);
           (VStr "wind_speed", wind_speed);
           (VStr "wind_direction", wind_direction);
           (VStr "humidity", if negb (is_None humidity) then humidity else VStr "N/A");
           (VStr "short_forecast", short_forecast);
           (VStr "detailed_forecast", detailed_forecast) ]).

(** Lines 75-131: [for i, p in enumerate(periods)], appending to
    [normalized_periods]. *)
Fixpoint normalize_loop (i : nat) (periods : list value) (hourly_periods : value)
    (normalized_periods : list value) : result (list value) :=
  match periods with
  | [] => ret normalized_periods
  | p :: rest =>
      entry <- normalize_period i p hourly_periods normalized_periods ;;
      normalize_loop (S i) rest hourly_periods (normalized_periods ++ [entry])
  end.

(** Lines 71-136: from the two decoded forecast responses to the report. *)
Definition normalize_forecast (forecast_data hourly_data : value) : result value :=
  properties <- getitem forecast_data "properties" ;;
  all_periods <- getitem properties "periods" ;;
  periods <- slice all_periods 0 3 ;;
  hourly_properties <- getitem hourly_data "properties" ;;
  hourly_periods <- getitem hourly_properties "periods" ;;
  items <- iter periods ;;
  normalized_periods <- normalize_loop 0 items hourly_periods [] ;;
  ret (VDict
         [ (VStr "source", VStr "National Weather Service (NOAA)");
           (VStr "forecast", VList normalized_periods) ]).

(* ================================================================= *)
(** ** Terrain: [_classify_terrain] and the arithmetic of
       [_get_topography_data] *)

(** Lines 177-186. *)
Definition _classify_terrain (elevation_range : Q) : string :=
  if Qltb elevation_range (inject_Z 10) then "Flat terrain"
  else if Qltb elevation_range (inject_Z 50) then "Gently rolling terrain"
  else if Qltb elevation_range (inject_Z 100) then "Moderately hilly terrain"
  else "Steep/mountainous terrain".

(* ================================================================= *)
(** ** Vegetation: [_get_fuel_sources], lines 213-227 *)

(** The dict [fuel_types] (and [water_types]): keys in insertion order,
    counts are Python ints. *)
Definition tally := list (value * Z).

Definition unhashable {A} (v : value) : result A :=
  raise TypeError ("unhashable type: " ++ quote (type_name v))%string.

(** [t[k] = t.get(k, 0) + 1] *)
Definition increment (t : tally) (k : value) : result tally :=
  if hashable k
  then ret (store t k (match lookup t k with Some n => n | None => 0 end + 1)%Z)
  else unhashable k.

(** [a or b], with [b] evaluated only when [a] is falsy. *)
Definition or_else (a : value) (b : result value) : result value :=
  if truthy a then ret a else b.

(** Lines 216-220: the body of the loop. *)
Definition count_fuel (fuel_types : tally) (element : value) : result tally :=
  type <- getitem element "type" ;;
  if eq_str type "way" then
    tags <- get element "tags" (VDict []) ;;
    natural <- get tags "natural" VNone ;;
    fuel_type <- or_else natural (get tags "landuse" VNone) ;;
    if truthy fuel_type then increment fuel_types fuel_type
    else ret fuel_types
  else ret fuel_types.

(** [len([e for e in elements if e['type'] == 'way'])], line 225. *)
Fixpoint count_ways (elements : list value) : result Z :=
  match elements with
  | [] => ret 0%Z
  | e :: rest =>
      type <- getitem e "type" ;;
      n <- count_ways rest ;;
      ret (if eq_str type "way" then n + 1 else n)%Z
  end.

(** [max(items, key=lambda x: x[1])]: the first item, in iteration order,
    whose count no other exceeds. *)
Fixpoint max_by_count (best : value * Z) (items : tally) : value * Z :=
  match items with
  | [] => best
  | x :: rest =>
      if (snd x >? snd best)%Z then max_by_count x rest else max_by_count best rest
  end.

(** Line 226. *)
Definition dominant_fuel (fuel_types : tally) : value :=
  match fuel_types with
  | [] => VStr "Unknown"
  | x :: rest => fst (max_by_count x rest)
  end.

Definition tally_dict (t : tally) : value :=
  VDict (map (fun kn => (fst kn, VInt (snd kn))) t).

(** Lines 215-220: the tally of a decoded response. *)
Definition fuel_tally (data : value) : result tally :=
  elements <- get data "elements" (VList []) ;;
  items <- iter elements ;;
  for_each count_fuel items [].

(** Line 225. *)
Definition total_areas (data : value) : result Z :=
  elements <- get data "elements" (VList []) ;;
  items <- iter elements ;;
  count_ways items.

(** Lines 213-227: from the decoded response to the report. *)
Definition fuel_report (data : value) : result value :=
  fuel_types <- fuel_tally data ;;
  total <- total_areas data ;;
  ret (VDict
         [ (VStr "source", VStr "OpenStreetMap via Overpass API");
           (VStr "fuel_types_found", tally_dict fuel_types);
           (VStr "total_areas", VInt total);
           (VStr "dominant_fuel", dominant_fuel fuel_types) ]).

(* ================================================================= *)
(** ** Water: [_get_water_sources], lines 254-272 *)

(** Lines 258-265: the body of the loop, on [(water_types, hydrants)]. *)
Definition count_water (s : tally * Z) (element : value) : result (tally * Z) :=
  let (water_types, hydrants) := s in
  tags <- get element "tags" (VDict []) ;;
  emergency <- get tags "emergency" VNone ;;
  if eq_str emergency "fire_hydrant" then ret (water_types, hydrants + 1)%Z
  else
    natural <- get tags "natural" VNone ;;
    water_type <-
      or_else natural
        (waterway <- get tags "waterway" VNone ;;
         or_else waterway (get tags "landuse" VNone)) ;;
    if truthy water_type then
      water_types <- increment water_types water_type ;;
      ret (water_types, hydrants)
    else ret (water_types, hydrants).

(** Lines 254-272. *)
Definition water_report (data : value) : result value :=
  elements <- get data "elements" (VList []) ;;
  items <- iter elements ;;
  s <- for_each count_water items ([], 0%Z) ;;
  elements <- get data "elements" (VList []) ;;
  items <- iter elements ;;
  ret (VDict
         [ (VStr "source", VStr "OpenStreetMap via Overpass API");
           (VStr "water_bodies", tally_dict (fst s));
           (VStr "fire_hydrants", VInt (snd s));
           (VStr "total_water_sources", VInt (Z.of_nat (List.length items))) ]).

(* ================================================================= *)
(** ** Burn assessor: [_assess_burn_conditions], lines 276-304 *)

(** Line 290: [int(''.join(filter(str.isdigit, wind.split()[0])))] *)
Definition parse_wind (wind : value) : result Z :=
  tokens <- str_split wind ;;
  first <- match tokens with
           | t :: _ => ret t
           | [] => raise IndexError "list index out of range"
           end ;;
  int_of_digits (filter_digits first).

Definition high_wind := "High wind speeds - increased fire spread risk".
Definition low_humidity := "Low humidity - increased fire intensity risk".
Definition high_temperature := "High temperature - increased fire behavior risk".
Definition moderate := "Conditions appear moderate".
Definition recommendation :=
  "Consult with fire management professionals before proceeding".

(** [if c: concerns.append(msg)] *)
Definition append_if (c : bool) (concerns : list string) (msg : string) : list string :=
  if c then concerns ++ [msg] else concerns.

(** Lines 282-302: the body of the [try]. *)
Definition compute_concerns (weather_data : value) : result value :=
  forecast <- getitem weather_data "forecast" ;;
  current <- getindex forecast 0 ;;
  temp <- getitem current "temperature" ;;
  humidity <- get current "humidity" (VStr "N/A") ;;
  wind <- getitem current "wind_speed" ;;
  let concerns := [] in
  wind_value <- parse_wind wind ;;
  let concerns := append_if (wind_value >? 15)%Z concerns high_wind in
  dry <- (if isinstance_int_float humidity then lt_int humidity 30 else ret false) ;;
  let concerns := append_if dry concerns low_humidity in
  hot <- gt_int temp 85 ;;
  let concerns := append_if hot concerns high_temperature in
  ret (VDict
         [ (VStr "concerns",
            VList (map VStr (match concerns with [] => [moderate] | _ => concerns end)));
           (VStr "recommendation", VStr recommendation) ]).

Definition assessment (msg : string) : value :=
  VDict [ (VStr "assessment", VStr msg) ].

(** Lines 276-304. *)
Definition _assess_burn_conditions (weather_data : value) : result value :=
  failed <- py_in "error" weather_data ;;
  if failed then ret (assessment "Unable to assess - weather data unavailable")
  else
    ret (try_except (compute_concerns weather_data)
           (fun e => assessment ("Unable to assess conditions: " ++ exn_str e)%string)).

(* ================================================================= *)
(** ** The outside world *)

(** An outbound call.  A URL is kept as the data it is formatted from. *)
Inductive request : Type :=
| Geocode (query : value)
    (** [self.geolocator.geocode(query)] *)
| GetPoints (lat lon : value)
    (** [https://api.weather.gov/points/{lat},{lon}] *)
| GetUrl (url : value)
    (** a URL taken from an upstream response *)
| GetElevation (locations : list (value * value))
    (** [https://api.open-elevation.com/api/v1/lookup?locations=...] *)
| GetFuel (lat lon : value)
    (** the Overpass query of [_get_fuel_sources] *)
| GetWater (lat lon : value).
    (** the Overpass query of [_get_water_sources] *)

(** What [geocode] returns: a [geopy] [Location]. *)
Record Location : Type :=
  { address : string; latitude : Q; longitude : Q }.

(** What [requests.get] returns: [status_error] is the [HTTPError] that
    [raise_for_status()] raises, if any; [body] is what [json()] returns or
    raises. *)
Record response : Type :=
  { status_error : option exn; body : result value }.

(** The collaborators the code calls.  Each reply may depend on the calls
    made so far.  [py_str] is [str()] on a value that is not a string, and
    [jsonify_error] the exception, if any, that Flask's [jsonify] raises on
    a report. *)
Record world : Type :=
  { geocode : list request -> value -> result (option Location);
    requests_get : list request -> request -> result response;
    py_str : value -> string;
    jsonify_error : value -> option exn }.

(** Code that calls out: it reads the log of the calls made so far and
    returns it extended. *)
Definition io (A : Type) : Type := list request -> result A * list request.

Definition io_ret {A} (a : A) : io A := fun log => (inr a, log).

Definition io_bind {A B} (m : io A) (k : A -> io B) : io B :=
  fun log =>
    match m log with
    | (inl e, log') => (inl e, log')
    | (inr a, log') => k a log'
    end.

Definition lift {A} (r : result A) : io A := fun log => (r, log).

Notation "x <-- m ;; k" := (io_bind m (fun x => k))
  (at level 61, m at next level, right associativity) : py_scope.

(** [try: body except Exception as e: return handler(e)] around code that
    calls out. *)
Definition io_try {A} (body : io A) (handler : exn -> A) : io A :=
  fun log =>
    match body log with
    | (inl e, log') => (inr (handler e), log')
    | (inr a, log') => (inr a, log')
    end.

Definition call_geocode (w : world) (query : value) : io (option Location) :=
  fun log => (geocode w log query, log ++ [Geocode query]).

Definition call_get (w : world) (req : request) : io response :=
  fun log => (requests_get w log req, log ++ [req]).

Definition raise_for_status (r : response) : result unit :=
  match status_error r with
  | Some e => inl e
  | None => ret tt
  end.

Definition json (r : response) : result value := body r.

(** [f"{v}"] *)
Definition format (w : world) (v : value) : string :=
  match v with
  | VStr s => s
  | _ => py_str w v
  end.

Definition error_record (prefix : string) (e : exn) : value :=
  VDict [ (VStr "error", VStr (prefix ++ exn_str e)%string) ].

(* ================================================================= *)
(** ** The lookups *)

(** Lines 34-45. *)
Definition _geocode_city (w : world) (city : value) : io value :=
  location <-- call_geocode w city ;;
  match location with
  | None => lift (raise ValueError ("Could not find location: " ++ format w city)%string)
  | Some location =>
      io_ret (VDict
                [ (VStr "source", VStr "Nominatim (OpenStreetMap)");
                  (VStr "name", VStr (address location));
                  (VStr "latitude", VFloat (latitude location));
                  (VStr "longitude", VFloat (longitude location)) ])
  end.

(** Lines 50-136: the body of the [try]. *)
Definition weather_lookup (w : world) (lat lon : value) : io value :=
  response <-- call_get w (GetPoints lat lon) ;;
  _ <-- lift (raise_for_status response) ;;
  points_data <-- lift (json response) ;;
  forecast_url <-- lift (properties <- getitem points_data "properties" ;;
                         getitem properties "forecast") ;;
  hourly_forecast_url <-- lift (properties <- getitem points_data "properties" ;;
                                getitem properties "forecastHourly") ;;
  forecast_response <-- call_get w (GetUrl forecast_url) ;;
  _ <-- lift (raise_for_status forecast_response) ;;
  forecast_data <-- lift (json forecast_response) ;;
  hourly_response <-- call_get w (GetUrl hourly_forecast_url) ;;
  _ <-- lift (raise_for_status hourly_response) ;;
  hourly_data <-- lift (json hourly_response) ;;
  lift (normalize_forecast forecast_data hourly_data).

(** Lines 47-138. *)
Definition _get_weather_data (w : world) (lat lon : value) : io value :=
  io_try (weather_lookup w lat lon) (error_record "Weather data unavailable: ").

(** [lat + offset] and [lat - offset] for a float [offset] *)
Definition add_float (v : value) (c : Q) : result value :=
  match num_of v with
  | Some q => q' <- float_of v q ;; ret (VFloat (double (q' + c)%Q))
  | None =>
      if is_sequence v
      then raise TypeError
             ("can only concatenate " ++ type_name v ++ " (not " ++ double_quote
                ++ "float" ++ double_quote ++ ") to " ++ type_name v)%string
      else raise TypeError
             ("unsupported operand type(s) for +: " ++ quote (type_name v)
                ++ " and 'float'")%string
  end.

Definition sub_float (v : value) (c : Q) : result value :=
  match num_of v with
  | Some q => q' <- float_of v q ;; ret (VFloat (double (q' - c)%Q))
  | None =>
      raise TypeError
        ("unsupported operand type(s) for -: " ++ quote (type_name v)
           ++ " and 'float'")%string
  end.

(** Lines 164-173: from the centre's elevation and the decoded response
    for the four neighbours to the report. *)
Definition topography_report (elevation nearby_data : value) : result value :=
  results <- getitem nearby_data "results" ;;
  items <- iter results ;;
  elevations <- for_each (fun acc r => e <- getitem r "elevation" ;; ret (acc ++ [e]))
                  items [] ;;
  highest <- py_extremum true elevations ;;
  lowest <- py_extremum false elevations ;;
  elevation_range <- py_sub highest lowest ;;
  feet <- mul_float elevation (double (328084 # 100000)) ;;
  range_nearby <- py_round1 elevation_range ;;
  ret (VDict
         [ (VStr "source", VStr "Open-Elevation API (SRTM 2000)");
           (VStr "elevation_meters", elevation);
           (VStr "elevation_feet", VFloat (round1 feet));
           (VStr "elevation_range_nearby", range_nearby);
           (VStr "terrain_note",
            VStr (_classify_terrain
                    (match num_of elevation_range with Some q => q | None => 0%Q end))) ]).

(** Lines 143-173: the body of the [try]. *)
Definition topography_lookup (w : world) (lat lon : value) : io value :=
  response <-- call_get w (GetElevation [(lat, lon)]) ;;
  _ <-- lift (raise_for_status response) ;;
  data <-- lift (json response) ;;
  elevation <-- lift (results <- getitem data "results" ;;
                      first <- getindex results 0 ;;
                      getitem first "elevation") ;;
  let offset := double (1 # 100) in
  north <-- lift (add_float lat offset) ;;
  south <-- lift (sub_float lat offset) ;;
  east <-- lift (add_float lon offset) ;;
  west <-- lift (sub_float lon offset) ;;
  let nearby_points := [ (north, lon); (south, lon); (lat, east); (lat, west) ] in
  nearby_response <-- call_get w (GetElevation nearby_points) ;;
  nearby_data <-- lift (json nearby_response) ;;
  lift (topography_report elevation nearby_data).

(** Lines 140-175. *)
Definition _get_topography_data (w : world) (lat lon : value) : io value :=
  io_try (topography_lookup w lat lon) (error_record "Topography data unavailable: ").

(** Lines 191-227: the body of the [try]. *)
Definition fuel_lookup (w : world) (lat lon : value) : io value :=
  response <-- call_get w (GetFuel lat lon) ;;
  _ <-- lift (raise_for_status response) ;;
  data <-- lift (json response) ;;
  lift (fuel_report data).

(** Lines 188-229. *)
Definition _get_fuel_sources (w : world) (lat lon : value) : io value :=
  io_try (fuel_lookup w lat lon) (error_record "Fuel source data unavailable: ").

(** Lines 234-272: the body of the [try]. *)
Definition water_lookup (w : world) (lat lon : value) : io value :=
  response <-- call_get w (GetWater lat lon) ;;
  _ <-- lift (raise_for_status response) ;;
  data <-- lift (json response) ;;
  lift (water_report data).

(** Lines 231-274. *)
Definition _get_water_sources (w : world) (lat lon : value) : io value :=
  io_try (water_lookup w lat lon) (error_record "Water source data unavailable: ").

(** The six sections of a report, in the order of lines 25-32. *)
Definition report (location weather topography fuel water assessment : value) : value :=
  VDict
    [ (VStr "location", location);
      (VStr "weather", weather);
      (VStr "topography", topography);
      (VStr "fuel_sources", fuel);
      (VStr "water_sources", water);
      (VStr "burn_assessment", assessment) ].

(** Lines 10-32. *)
Definition analyze_location (w : world) (city : value) : io value :=
  location_data <-- _geocode_city w city ;;
  lat <-- lift (getitem location_data "latitude") ;;
  lon <-- lift (getitem location_data "longitude") ;;
  weather_data <-- _get_weather_data w lat lon ;;
  topography_data <-- _get_topography_data w lat lon ;;
  fuel_data <-- _get_fuel_sources w lat lon ;;
  water_sources <-- _get_water_sources w lat lon ;;
  burn_assessment <-- lift (_assess_burn_conditions weather_data) ;;
  io_ret (report location_data weather_data topography_data fuel_data water_sources
            burn_assessment).

End BurnAgent.

(* ================================================================= *)
(** * app.py *)

Module App.

Import BurnAgent.

(** What the view returns: the dict handed to [jsonify] and the status. *)
Definition http_response : Type := (value * Z)%type.

Definition error_body (msg : string) : value :=
  VDict [ (VStr "error", VStr msg) ].

(** Lines 12-23, on the decoded request body [data]. *)
Definition analyze_location (w : world) (data : value) : io http_response :=
  city <-- lift (get data "city" (VStr "")) ;;
  if negb (truthy city) then io_ret (error_body "City name is required", 400%Z)
  else
    io_try
      (result <-- BurnAgent.analyze_location w city ;;
       match jsonify_error w result with
       | Some e => lift (inl e)
       | None => io_ret (result, 200%Z)
       end)
      (fun e => (error_body (exn_str e), 500%Z)).

End App.

(* ================================================================= *)
(** * Vocabulary of the properties *)

Import BurnAgent.

(** ** Vegetation tally *)

(** The element is a dict whose ['type'] is ['way']. *)
Definition is_way (element : value) : bool :=
  match getitem element "type" with
  | inr type => eq_str type "way"
  | inl _ => false
  end.

(** The element carries [tag] as the value of its ['natural'] or of its
    ['landuse'] tag. *)
Definition carries_tag (element tag : value) : Prop :=
  exists d tags,
    element = VDict d /\ field d "tags" = Some (VDict tags) /\
    (field tags "natural" = Some tag \/ field tags "landuse" = Some tag).

(** The sum of the counts of a tally. *)
Definition sum_counts (t : tally) : Z :=
  fold_right (fun kn acc => (snd kn + acc)%Z) 0%Z t.

(** [t.get(k, 0)] *)
Definition count_of (t : tally) (k : value) : Z :=
  match lookup t k with Some n => n | None => 0%Z end.

(** The number of ways among the elements. *)
Definition ways (elements : list value) : Z :=
  Z.of_nat (List.length (filter is_way elements)).

(** Every entry of the tally has a positive count and a tag carried by a
    way among [elements]. *)
Definition sound (elements : list value) (t : tally) : Prop :=
  forall tag n,
    In (tag, n) t ->
    (0 < n)%Z /\
    exists e, In e elements /\ is_way e = true /\ carries_tag e tag.

(** The elements that the loops of [_get_fuel_sources] visit. *)
Definition elements_of (data : value) : result (list value) :=
  elements <- get data "elements" (VList []) ;;
  iter elements.

(** ** Weather normalizer *)

(** The name has a part that reads "night" when case is ignored. *)
Definition mentions_night (name : string) : Prop :=
  exists pre mid post,
    name = (pre ++ mid ++ post)%string /\ lower mid = "night".

(** The value that a report, or an entry of its forecast, has under [k]. *)
Definition entry_field (k : string) (entry : value) : option value :=
  match entry with
  | VDict d => field d k
  | _ => None
  end.

(** [entry['name'] == s] *)
Definition named (entry : value) (s : string) : bool :=
  match entry_field "name" entry with
  | Some n => eq_str n s
  | None => false
  end.

(** The entry's ['name'] is the string [s]. *)
Definition name_is (entry : value) (s : string) : Prop :=
  entry_field "name" entry = Some (VStr s).

(** The periods of a decoded forecast response, in order. *)
Definition upstream_periods (forecast_data : value) : result (list value) :=
  properties <- getitem forecast_data "properties" ;;
  all_periods <- getitem properties "periods" ;;
  iter all_periods.

(** The entry was made from the period: it keeps the period's name as its
    ['original_name']. *)
Definition made_from (p entry : value) : Prop :=
  exists original_name,
    getitem p "name" = inr original_name /\
    entry_field "original_name" entry = Some original_name.

(** The ['humidity'] of the entries of a report. *)
Definition humidities (r : result value) : list (option value) :=
  match r with
  | inr (VDict d) =>
      match field d "forecast" with
      | Some (VList out) => map (entry_field "humidity") out
      | _ => []
      end
  | _ => []
  end.

(** ** Burn assessor *)

(** The concerns that the thresholds trigger, in the order wind, humidity,
    temperature.  A humidity is numeric when it is an [int] or a [float]
    for [isinstance], which is when [num_of] reads it. *)
Definition triggered (wind_value : Z) (humidity : value) (temperature : Q)
  : list string :=
  (if (15 <? wind_value)%Z then [ high_wind ] else []) ++
  (match num_of humidity with
   | Some h => if Qltb h (inject_Z 30) then [ low_humidity ] else []
   | None => []
   end) ++
  (if Qltb (inject_Z 85) temperature then [ high_temperature ] else []).

(** ** Section-local failures *)

(** The lookup that makes a request. *)
Inductive lookup_kind : Type := Weather | Topography | Fuel | Water.

Definition asked_by (req : request) : option lookup_kind :=
  match req with
  | Geocode _ => None
  | GetPoints _ _ | GetUrl _ => Some Weather
  | GetElevation _ => Some Topography
  | GetFuel _ _ => Some Fuel
  | GetWater _ _ => Some Water
  end.

(** The two worlds answer the requests of lookup [k] alike, whatever was
    called before. *)
Definition same_replies (k : lookup_kind) (w w' : world) : Prop :=
  forall log log' req,
    asked_by req = Some k -> requests_get w log req = requests_get w' log' req.

(** The two computations return the same value, or raise the same
    exception, whatever was called before. *)
Definition same_outcome {A} (m m' : io A) : Prop :=
  forall log log', fst (m log) = fst (m' log').

(** The section that a lookup contributes: the value of its [try] body,
    or the error record for the exception the body raised. *)
Definition section_of (prefix : string) (body : result value * list request)
    (section : value) : Prop :=
  match fst body with
  | inr v => section = v
  | inl e => section = error_record prefix e
  end.

(** ** Example inputs *)

(** A decoded Overpass response. *)
Definition example_elements : value :=
  let element type tags := VDict [ (VStr "type", VStr type); (VStr "tags", VDict tags) ] in
  VDict
    [ (VStr "elements",
       VList [ element "way" [ (VStr "natural", VStr "wood") ];
               element "node" [ (VStr "natural", VStr "tree") ];
               element "way" [ (VStr "landuse", VStr "grass") ];
               element "way" [ (VStr "name", VStr "Elm Street") ];
               element "way" [ (VStr "natural", VStr "wood") ] ]) ].

(** A decoded forecast response with the given periods. *)
Definition feed (periods : list value) : value :=
  VDict [ (VStr "properties", VDict [ (VStr "periods", VList periods) ]) ].

(** A forecast period as the upstream sends it, without humidity. *)
Definition example_period (name : string) : value :=
  VDict [ (VStr "name", VStr name);
          (VStr "temperature", VInt 70);
          (VStr "temperatureUnit", VStr "F");
          (VStr "windSpeed", VStr "5 to 10 mph");
          (VStr "windDirection", VStr "NW");
          (VStr "shortForecast", VStr "Sunny");
          (VStr "detailedForecast", VStr "Sunny, with a high near 70.") ].

Definition example_forecast (names : list string) : value :=
  feed (map example_period names).

(** A forecast period with the given extra keys. *)
Definition humid_period (humidity : list (value * value)) : value :=
  VDict ([ (VStr "name", VStr "Today");
           (VStr "temperature", VInt 70);
           (VStr "temperatureUnit", VStr "F");
           (VStr "windSpeed", VStr "5 mph");
           (VStr "windDirection", VStr "N");
           (VStr "shortForecast", VStr "Sunny");
           (VStr "detailedForecast", VStr "Sunny.") ] ++ humidity).

(** A weather report with one period. *)
Definition example_report (wind : string) (humidity temperature : Z) : dict :=
  [ (VStr "source", VStr "National Weather Service (NOAA)");
    (VStr "forecast",
     VList [ VDict [ (VStr "name", VStr "Today");
                     (VStr "temperature", VInt temperature);
                     (VStr "wind_speed", VStr wind);
                     (VStr "humidity", VInt humidity) ] ]) ].

(** A world in which no place is found and every request fails. *)
Definition nowhere : world :=
  {| geocode := fun _ _ => inr None;
     requests_get := fun _ _ => raise (OtherError "ConnectionError") "unreachable";
     py_str := fun _ => "";
     jsonify_error := fun _ => None |}.

Definition example_location : Location :=
  {| address := "Boise, Ada County, Idaho, United States";
     latitude := double (436 # 10);
     longitude := double (-1162 # 10) |}.

(** A reply with a good status and the given JSON body. *)
Definition replies (v : value) : result response :=
  inr {| status_error := None; body := inr v |}.

(** A world in which every collaborator answers, except that the grid
    point request of the weather lookup times out when [points_up] is
    [false]. *)
Definition example_world (points_up : bool) : world :=
  {| geocode := fun _ _ => inr (Some example_location);
     requests_get := fun _ req =>
       match req with
       | GetPoints _ _ =>
           if points_up
           then replies
                  (VDict [ (VStr "properties",
                            VDict [ (VStr "forecast", VStr "https://api.weather.gov/f");
                                    (VStr "forecastHourly",
                                     VStr "https://api.weather.gov/h") ]) ])
           else raise (OtherError "ConnectTimeout") "timed out"
       | GetUrl _ => replies (example_forecast [ "Today"; "Tonight"; "Friday" ])
       | GetElevation _ =>
           replies (VDict [ (VStr "results",
                             VList [ VDict [ (VStr "elevation", VInt 824) ] ]) ])
       | _ => replies (VDict [ (VStr "elements", VList []) ])
       end;
     py_str := fun _ => "";
     jsonify_error := fun _ => None |}.

(** ** Wind text *)

(** Every character of the string is whitespace. *)
Fixpoint all_space (s : string) : bool :=
  match s with
  | EmptyString => true
  | String c s' => isspace c && all_space s'
  end.

(** No character of the string is whitespace. *)
Fixpoint no_space (s : string) : bool :=
  match s with
  | EmptyString => true
  | String c s' => negb (isspace c) && no_space s'
  end.

(** The string is empty or starts with whitespace. *)
Definition ends_token (s : string) : bool :=
  match s with
  | EmptyString => true
  | String c _ => isspace c
  end.

(** ** Tallies as histograms *)

(** The tag under which the loop of [_get_fuel_sources] counts an element:
    for a way, its 'natural' tag when that is truthy, else its 'landuse'
    tag when that is truthy. *)
Definition fuel_key (element : value) : option value :=
  match element with
  | VDict d =>
      match field d "type", field d "tags" with
      | Some type, Some (VDict tags) =>
          if eq_str type "way" then
            match field tags "natural" with
            | Some natural =>
                if truthy natural then Some natural
                else match field tags "landuse" with
                     | Some landuse => if truthy landuse then Some landuse else None
                     | None => None
                     end
            | None =>
                match field tags "landuse" with
                | Some landuse => if truthy landuse then Some landuse else None
                | None => None
                end
            end
          else None
      | _, _ => None
      end
  | _ => None
  end.

(** The element is counted under a tag equal, as a dict key, to [k]. *)
Definition counted_under (key_of : value -> option value) (k element : value) : bool :=
  match key_of element with
  | Some k' => key_eqb k' k
  | None => false
  end.

(** The element is counted under some tag. *)
Definition counted (key_of : value -> option value) (element : value) : bool :=
  match key_of element with
  | Some _ => true
  | None => false
  end.

(** How many of the items satisfy [f]. *)
Definition how_many (f : value -> bool) (items : list value) : Z :=
  Z.of_nat (List.length (filter f items)).

(** No two entries of the tally have equal keys. *)
Fixpoint distinct_keys (t : tally) : Prop :=
  match t with
  | [] => True
  | (k, _) :: t' => lookup t' k = None /\ distinct_keys t'
  end.

(** The element is a fire hydrant for the loop of [_get_water_sources]. *)
Definition is_hydrant (element : value) : bool :=
  match element with
  | VDict d =>
      match field d "tags" with
      | Some (VDict tags) =>
          match field tags "emergency" with
          | Some e => eq_str e "fire_hydrant"
          | None => false
          end
      | _ => false
      end
  | _ => false
  end.

(** The first truthy value among the tags' values under the given names. *)
Fixpoint first_truthy (tags : dict) (names : list string) : option value :=
  match names with
  | [] => None
  | n :: rest =>
      match field tags n with
      | Some x => if truthy x then Some x else first_truthy tags rest
      | None => first_truthy tags rest
      end
  end.

(** The tag under which the loop of [_get_water_sources] counts an element
    that is not a hydrant: the first truthy one of its 'natural',
    'waterway' and 'landuse' tags. *)
Definition water_key (element : value) : option value :=
  if is_hydrant element then None
  else match element with
       | VDict d =>
           match field d "tags" with
           | Some (VDict tags) => first_truthy tags [ "natural"; "waterway"; "landuse" ]
           | _ => None
           end
       | _ => None
       end.

(** One step of a tally: count the element under its key, if it has one. *)
Definition tally_step (key_of : value -> option value) (t : tally) (element : value)
  : tally :=
  match key_of element with
  | Some k => store t k (count_of t k + 1)%Z
  | None => t
  end.

(** A decoded Overpass response of the water query: a lake, a stream, a
    hydrant that is also tagged as water, and an untagged node. *)
Definition example_water : value :=
  let element type tags := VDict [ (VStr "type", VStr type); (VStr "tags", VDict tags) ] in
  VDict
    [ (VStr "elements",
       VList [ element "way" [ (VStr "natural", VStr "water") ];
               element "way" [ (VStr "waterway", VStr "stream") ];
               element "node" [ (VStr "emergency", VStr "fire_hydrant");
                                (VStr "natural", VStr "water") ];
               VDict [ (VStr "type", VStr "node") ] ]) ].

(** The element has no 'type' that can be read: [element['type']] raises. *)
Definition untyped (element : value) : Prop :=
  exists e, getitem element "type" = inl e.

(** The two elements are mappings with the same value, or none, under
    'tags'; their other keys are free. *)
Definition same_tags (element element' : value) : Prop :=
  exists d d',
    element = VDict d /\ element' = VDict d' /\ field d "tags" = field d' "tags".

(** A decoded Overpass response with the given elements. *)
Definition response_of (elements : list value) : value :=
  VDict [ (VStr "elements", VList elements) ].

(** A lake as a way, as an element without a 'type', and as an element
    whose 'type' is a number and that has a key more. *)
Definition lake (kind : nat) : value :=
  let tags := (VStr "tags", VDict [ (VStr "natural", VStr "water") ]) in
  match kind with
  | O => VDict [ (VStr "type", VStr "way"); tags ]
  | S O => VDict [ tags ]
  | _ => VDict [ (VStr "id", VInt 7); tags; (VStr "type", VInt 3) ]
  end.

(** ** Hourly backfill *)

(** The humidity that an hourly entry offers: the value of its truthy
    'relativeHumidity', read through a wrapper's 'value', unless that is
    [None]. *)
Definition offered (hourly : value) : option value :=
  match hourly with
  | VDict d =>
      match field d "relativeHumidity" with
      | Some rh =>
          if truthy rh
          then (if is_None (unwrap_humidity rh) then None else Some (unwrap_humidity rh))
          else None
      | None => None
      end
  | _ => None
  end.

(** The first humidity that the entries offer, in order. *)
Fixpoint first_offered (hourlies : list value) : option value :=
  match hourlies with
  | [] => None
  | hourly :: rest =>
      match offered hourly with
      | Some x => Some x
      | None => first_offered rest
      end
  end.

(** The hourly entries at positions [4 i] to [4 i + 3]. *)
Definition window (i : nat) (hourlies : list value) : list value :=
  firstn 4 (skipn (i * 4) hourlies).

(** An hourly feed: four entries at 40 percent, an entry whose wrapper
    holds no value, an entry at 61 percent. *)
Definition example_hourlies : list value :=
  let at_ v := VDict [ (VStr "relativeHumidity", VDict [ (VStr "value", v) ]) ] in
  [ at_ (VInt 40); at_ (VInt 40); at_ (VInt 40); at_ (VInt 40); at_ VNone; at_ (VInt 61) ].

(** ** Forecast entries *)

(** The entry renders the period: it holds the period's values under the
    nine keys of an entry, a name that is one of the four labels, and a
    humidity that is not [None]. *)
Definition renders (p entry : value) : Prop :=
  exists (name : string)
         (original temperature unit wind direction humidity short detailed : value),
    entry = VDict [ (VStr "name", VStr name);
                    (VStr "original_name", original);
                    (VStr "temperature", temperature);
                    (VStr "temperature_unit", unit);
                    (VStr "wind_speed", wind);
                    (VStr "wind_direction", direction);
                    (VStr "humidity", humidity);
                    (VStr "short_forecast", short);
                    (VStr "detailed_forecast", detailed) ] /\
    In name [ "Today"; "Tonight"; "Tomorrow"; "Tomorrow Night" ] /\
    getitem p "name" = inr original /\
    getitem p "temperature" = inr temperature /\
    getitem p "temperatureUnit" = inr unit /\
    getitem p "windSpeed" = inr wind /\
    getitem p "windDirection" = inr direction /\
    getitem p "shortForecast" = inr short /\
    getitem p "detailedForecast" = inr detailed /\
    is_None humidity = false.

(** The list under [properties.periods] of a decoded forecast response. *)
Definition periods_list (forecast_data : value) (periods : list value) : Prop :=
  exists properties,
    getitem forecast_data "properties" = inr properties /\
    getitem properties "periods" = inr (VList periods).

(** [hourly_data['properties']['periods']], line 72. *)
Definition hourly_periods_of (hourly_data : value) : result value :=
  properties <- getitem hourly_data "properties" ;;
  getitem properties "periods".

(** The period does not leave its humidity to the hourly feed: it has one
    of its own, or reading it raises. *)
Definition settles_humidity (p : value) : Prop := own_humidity p <> inr VNone.

(** A forecast period with a wrapped humidity of its own. *)
Definition humid (name : string) (percent : Z) : value :=
  match example_period name with
  | VDict d =>
      VDict (d ++ [ (VStr "relativeHumidity", VDict [ (VStr "value", VInt percent) ]) ])
  | other => other
  end.

(** ** Neighbour elevations *)

(** Line 164: [[r['elevation'] for r in nearby_data['results']]]. *)
Definition neighbour_elevations (nearby_data : value) : result (list value) :=
  results <- getitem nearby_data "results" ;;
  items <- iter results ;;
  for_each (fun acc r => e <- getitem r "elevation" ;; ret (acc ++ [e])) items [].

(** The item is a number between [lo] and [hi]. *)
Definition within (lo hi : Q) (e : value) : Prop :=
  exists q, num_of e = Some q /\ (lo <= q)%Q /\ (q <= hi)%Q.

(** The difference of [a], of value [x], and [b], of value [y], as Python
    takes it: exact between ints, and the double nearest to the difference
    of the two as doubles when one of them is a float. *)
Definition difference (a b : value) (x y : Q) : Q :=
  if is_float a || is_float b then double (double x - double y)%Q else (x - y)%Q.

(** A decoded response of the elevation service for two neighbours, at
    0.1 m and at 10.1 m. *)
Definition example_neighbours : value :=
  VDict [ (VStr "results",
           VList [ VDict [ (VStr "elevation", VFloat (double (1 # 10))) ];
                   VDict [ (VStr "elevation", VFloat (double (101 # 10))) ] ]) ].

(** ** Outbound calls *)

(** The request fetches a URL that an upstream response named. *)
Definition is_url_request (req : request) : Prop :=
  match req with GetUrl _ => True | _ => False end.

(** The request asks for elevations. *)
Definition is_elevation_request (req : request) : Prop :=
  match req with GetElevation _ => True | _ => False end.

(** The reply to a request is a failure that the lookup raises at once:
    [requests.get] raised, or [raise_for_status] does. *)
Definition fails_with (reply : result response) (e : exn) : Prop :=
  reply = inl e \/ exists r, reply = inr r /\ status_error r = Some e.

(** The reply with its HTTP status taken as good. *)
Definition status_cleared (reply : result response) : result response :=
  match reply with
  | inl e => inl e
  | inr r => inr {| status_error := None; body := body r |}
  end.

(** The world in which every reply to an elevation request for more than
    one location has a good status, and all else is as in [w]. *)
Definition neighbours_status_cleared (w : world) : world :=
  {| geocode := geocode w;
     requests_get := fun log req =>
       match req with
       | GetElevation (_ :: _ :: _) => status_cleared (requests_get w log req)
       | _ => requests_get w log req
       end;
     py_str := py_str w;
     jsonify_error := jsonify_error w |}.

(** A world whose elevation service answers the neighbours request with
    the status 500 and a body that decodes. *)
Definition example_world_500 : world :=
  {| geocode := geocode (example_world true);
     requests_get := fun log req =>
       match req with
       | GetElevation (_ :: _ :: _) =>
           inr {| status_error :=
                    Some (Raise HTTPError "500 Server Error: Internal Server Error");
                  body := inr (VDict [ (VStr "results",
                                        VList [ VDict [ (VStr "elevation", VInt 800) ];
                                                VDict [ (VStr "elevation", VInt 860) ] ]) ]) |}
       | _ => requests_get (example_world true) log req
       end;
     py_str := py_str (example_world true);
     jsonify_error := jsonify_error (example_world true) |}.

(* ================================================================= *)
(** * Verified properties *)

(** ** Reading results *)

Lemma bind_inr {A B} (m : result A) (k : A -> result B) (b : B) :
  bind m k = inr b -> exists a, m = inr a /\ k a = inr b.
Proof.
  destruct m as [e | a]; simpl; intros H; [discriminate | eauto].
Qed.

(** Closes a goal in which [H] says that raising code returned. *)
Ltac raised H :=
  unfold not_subscriptable, no_attribute, not_supported, not_ordered, unhashable,
    raise in H;
  discriminate H.

(** Splits a successful chain of binds into its steps. *)
Ltac steps :=
  repeat match goal with
    | H : bind _ _ = inr _ |- _ =>
        let a := fresh "a" in
        let Ha := fresh "Ha" in
        apply bind_inr in H; destruct H as (a & Ha & H)
    | H : ret _ = inr _ |- _ => unfold ret in H
    | H : inl _ = inr _ |- _ => discriminate H
    | H : inr _ = inr _ |- _ => injection H as H
    | H : _ = inr _ |- _ => raised H
    end.

(** ** Terrain classification *)

Lemma Qltb_lt (a b : Q) : Qltb a b = true <-> (a < b)%Q.
Proof.
  unfold Qltb. rewrite negb_true_iff. split.
  - intros H. apply Qnot_le_lt. intros Hle.
    apply Qle_bool_iff in Hle. congruence.
  - intros H. destruct (Qle_bool b a) eqn:E; [| reflexivity].
    apply Qle_bool_iff in E. exfalso. exact (Qlt_not_le _ _ H E).
Qed.

Lemma Qltb_ge (a b : Q) : Qltb a b = false <-> (b <= a)%Q.
Proof.
  unfold Qltb. rewrite negb_false_iff. apply Qle_bool_iff.
Qed.

(** C3, as the claim words it, fails: at an elevation range of 5 the code
    answers 'Flat terrain', not the label 'Flat'. *)
Lemma C3_label_is_not_bare_Flat :
  (inject_Z 5 < inject_Z 10)%Q /\
  _classify_terrain (inject_Z 5) = "Flat terrain" /\
  _classify_terrain (inject_Z 5) <> "Flat".
Proof.
  repeat split; discriminate.
Qed.

Lemma Qltb_Qeq (a a' b : Q) : (a == a')%Q -> Qltb a b = Qltb a' b.
Proof.
  intros H. destruct (Qltb a' b) eqn:E.
  - apply Qltb_lt. apply Qltb_lt in E. rewrite H. exact E.
  - apply Qltb_ge. apply Qltb_ge in E. rewrite H. exact E.
Qed.

(** C3 (amended): terrain classification is a step function of the
    elevation range with inclusive lower and exclusive upper boundaries at
    10, 50 and 100; the four labels are 'Flat terrain', 'Gently rolling
    terrain', 'Moderately hilly terrain' and 'Steep/mountainous terrain';
    the label depends on the value of the range only. *)
Theorem C3_classify_terrain_steps (elevation_range : Q) :
  (forall other, (elevation_range == other)%Q ->
     _classify_terrain elevation_range = _classify_terrain other) /\
  ((elevation_range < inject_Z 10)%Q ->
     _classify_terrain elevation_range = "Flat terrain") /\
  ((inject_Z 10 <= elevation_range)%Q /\ (elevation_range < inject_Z 50)%Q ->
     _classify_terrain elevation_range = "Gently rolling terrain") /\
  ((inject_Z 50 <= elevation_range)%Q /\ (elevation_range < inject_Z 100)%Q ->
     _classify_terrain elevation_range = "Moderately hilly terrain") /\
  ((inject_Z 100 <= elevation_range)%Q ->
     _classify_terrain elevation_range = "Steep/mountainous terrain").
Proof.
  split.
  { intros other H. unfold _classify_terrain.
    rewrite !(Qltb_Qeq _ _ _ H). reflexivity. }
  unfold _classify_terrain. destruct elevation_range as [n d].
  destruct (Qltb (n # d) (inject_Z 10)) eqn:E10;
    destruct (Qltb (n # d) (inject_Z 50)) eqn:E50;
    destruct (Qltb (n # d) (inject_Z 100)) eqn:E100;
    repeat match goal with
      | H : Qltb _ _ = true |- _ => apply Qltb_lt in H
      | H : Qltb _ _ = false |- _ => apply Qltb_ge in H
      end;
    repeat split; intros; try reflexivity; exfalso;
    repeat match goal with H : _ /\ _ |- _ => destruct H end;
    repeat match goal with
      | H : (_ < _)%Q |- _ => unfold Qlt in H; cbn [Qnum Qden inject_Z] in H
      | H : (_ <= _)%Q |- _ => unfold Qle in H; cbn [Qnum Qden inject_Z] in H
      end; lia.
Qed.

(** ** Dominant fuel *)

Lemma max_by_count_first_max (items : tally) (best : value * Z) :
  exists before after,
    best :: items = before ++ max_by_count best items :: after /\
    (forall x, In x before -> (snd x < snd (max_by_count best items))%Z) /\
    (forall x, In x after -> (snd x <= snd (max_by_count best items))%Z).
Proof.
  revert best. induction items as [| x rest IH]; intros best; simpl.
  - exists [], []. repeat split; intros ? [].
  - destruct (snd x >? snd best)%Z eqn:E.
    + destruct (IH x) as (before & after & Heq & Hb & Ha).
      exists (best :: before), after. simpl. rewrite <- Heq.
      split; [reflexivity |]. split; [| exact Ha].
      intros y [<- | Hy]; [| apply Hb; exact Hy].
      assert (snd x <= snd (max_by_count x rest))%Z.
      { assert (Hin : In x (before ++ max_by_count x rest :: after))
          by (rewrite <- Heq; left; reflexivity).
        apply in_app_or in Hin. destruct Hin as [Hin | [Hin | Hin]].
        - apply Hb in Hin. lia.
        - rewrite Hin. lia.
        - apply Ha in Hin. lia. }
      lia.
    + destruct (IH best) as (before & after & Heq & Hb & Ha).
      destruct before as [| b before'].
      * simpl in Heq. injection Heq as Hbest Hrest.
        exists [], (x :: after). simpl. rewrite <- Hbest, <- Hrest.
        split; [reflexivity |]. split; [intros ? [] |].
        intros y [<- | Hy].
        -- lia.
        -- rewrite Hbest. apply Ha. rewrite <- Hrest. exact Hy.
      * simpl in Heq. injection Heq as Hbest Hrest. subst b.
        exists (best :: x :: before'), after. simpl.
        split; [do 2 f_equal; exact Hrest |]. split; [| exact Ha].
        intros y [<- | [<- | Hy]].
        -- apply Hb. left. reflexivity.
        -- assert (snd best < snd (max_by_count best rest))%Z
             by (apply Hb; left; reflexivity).
           lia.
        -- apply Hb. right. exact Hy.
Qed.

(** C6: on a non-empty tally [dominant_fuel] is the tag of an entry whose
    count no other entry exceeds, namely the first such entry in the
    tally's order (so the choice is a function of the tally as ordered);
    on [{wood:3, grass:5, scrub:5}] it is one of the tied entries; on the
    empty tally it is ["Unknown"]. *)
Theorem C6_dominant_fuel (fuel_types : tally) :
  (fuel_types = [] -> dominant_fuel fuel_types = VStr "Unknown") /\
  (fuel_types <> [] ->
   exists before count after,
     fuel_types = before ++ (dominant_fuel fuel_types, count) :: after /\
     (forall tag n, In (tag, n) fuel_types -> (n <= count)%Z) /\
     (forall tag n, In (tag, n) before -> (n < count)%Z)) /\
  (let example := [ (VStr "wood", 3%Z); (VStr "grass", 5%Z); (VStr "scrub", 5%Z) ] in
   dominant_fuel example = VStr "grass" /\
   In (dominant_fuel example, 5%Z) example).
Proof.
  split; [| split].
  - intros ->. reflexivity.
  - intros Hne. destruct fuel_types as [| x rest]; [congruence |].
    destruct (max_by_count_first_max rest x) as (before & after & Heq & Hb & Ha).
    unfold dominant_fuel.
    exists before, (snd (max_by_count x rest)), after.
    rewrite <- surjective_pairing. split; [exact Heq |]. split.
    + intros tag n Hin. rewrite Heq in Hin.
      apply in_app_or in Hin. destruct Hin as [Hin | [Hin | Hin]].
      * apply Hb in Hin. simpl in Hin. lia.
      * rewrite Hin. simpl. lia.
      * apply Ha in Hin. simpl in Hin. lia.
    + intros tag n Hin. apply Hb in Hin. exact Hin.
  - simpl. split; [reflexivity |]. right. left. reflexivity.
Qed.

(** ** Vegetation tally *)

Lemma lookup_In {V} (t : list (value * V)) (k : value) (n : V) :
  lookup t k = Some n -> exists k', In (k', n) t.
Proof.
  induction t as [| [k' m] t IH]; simpl; [discriminate |].
  destruct (key_eqb k' k).
  - intros [= ->]. exists k'. left. reflexivity.
  - intros H. destruct (IH H) as (k'' & Hin). exists k''. right. exact Hin.
Qed.

Lemma sum_counts_store (t : tally) (k : value) :
  sum_counts (store t k (count_of t k + 1)%Z) = (sum_counts t + 1)%Z.
Proof.
  unfold count_of. induction t as [| [k' m] t IH]; simpl; [reflexivity |].
  destruct (key_eqb k' k); simpl; lia.
Qed.

Lemma In_store (t : tally) (k : value) (v : Z) (tag : value) (n : Z) :
  In (tag, n) (store t k v) ->
  In (tag, n) t \/ (n = v /\ (tag = k \/ exists m, In (tag, m) t)).
Proof.
  induction t as [| [k' m] t IH]; simpl.
  - intros [[= <- <-] | []]. right. split; [reflexivity | left; reflexivity].
  - destruct (key_eqb k' k); simpl.
    + intros [[= <- <-] | Hin].
      * right. split; [reflexivity |]. right. exists m. left. reflexivity.
      * left. right. exact Hin.
    + intros [Heq | Hin].
      * left. left. exact Heq.
      * destruct (IH Hin) as [H | (-> & [-> | (m' & Hm)])].
        -- left. right. exact H.
        -- right. split; [reflexivity | left; reflexivity].
        -- right. split; [reflexivity |]. right. exists m'. right. exact Hm.
Qed.

(** One iteration of the loop either leaves the tally as it is, or counts
    a way under a tag that the way carries. *)
Lemma count_fuel_step (t t' : tally) (element : value) :
  count_fuel t element = inr t' ->
  t' = t \/
  (is_way element = true /\
   exists tag, carries_tag element tag /\ t' = store t tag (count_of t tag + 1)%Z).
Proof.
  unfold count_fuel, is_way. intros H.
  apply bind_inr in H as (type & Htype & H). rewrite Htype.
  destruct (eq_str type "way"); [| left; steps; congruence].
  apply bind_inr in H as (tags & Htags & H).
  apply bind_inr in H as (natural & Hnat & H).
  apply bind_inr in H as (fuel_type & Hft & H).
  destruct (truthy fuel_type) eqn:Tft; [| left; steps; congruence].
  unfold increment in H. destruct (hashable fuel_type); [| raised H].
  right. split; [reflexivity |]. exists fuel_type.
  split; [| unfold count_of; steps; congruence].
  destruct element as [| | | | | | d]; try (simpl in Htype; raised Htype).
  destruct tags as [| | | | | | td]; try (simpl in Hnat; raised Hnat).
  assert (Hcarried :
            field td "natural" = Some fuel_type \/ field td "landuse" = Some fuel_type).
  { simpl in Hnat. unfold or_else in Hft.
    destruct (truthy natural) eqn:Tn; simpl in Hft; steps.
    - left. destruct (field td "natural"); subst; [reflexivity | discriminate Tn].
    - right. destruct (field td "landuse"); subst; [reflexivity | discriminate Tft]. }
  exists d, td. split; [reflexivity |]. split; [| exact Hcarried].
  simpl in Htags. destruct (field d "tags") as [x |]; steps.
  - congruence.
  - subst td. destruct Hcarried; discriminate.
Qed.

Lemma ways_cons (e : value) (elements : list value) :
  ways (e :: elements) = ((if is_way e then 1 else 0) + ways elements)%Z.
Proof.
  unfold ways. simpl. destruct (is_way e); simpl List.length; lia.
Qed.

Lemma count_ways_spec (elements : list value) (n : Z) :
  count_ways elements = inr n -> n = ways elements.
Proof.
  revert n. induction elements as [| e rest IH]; simpl; intros n H.
  - steps. subst n. reflexivity.
  - apply bind_inr in H as (type & Htype & H).
    apply bind_inr in H as (m & Hm & H). steps.
    rewrite ways_cons. unfold is_way. rewrite Htype, <- (IH m Hm).
    destruct (eq_str type "way"); lia.
Qed.

Lemma sound_more (seen more : list value) (t : tally) :
  sound seen t -> sound (seen ++ more) t.
Proof.
  intros Hs tag n Hin. destruct (Hs tag n Hin) as (Hn & e & He & Hw & Hc).
  split; [exact Hn |]. exists e. split; [| split]; auto.
  apply in_or_app. left. exact He.
Qed.

Lemma count_of_nonneg (elements : list value) (t : tally) (k : value) :
  sound elements t -> (0 <= count_of t k)%Z.
Proof.
  intros Hs. unfold count_of. destruct (lookup t k) as [n |] eqn:E; [| lia].
  apply lookup_In in E as (k' & Hin). apply Hs in Hin. lia.
Qed.

Lemma for_each_count_fuel (items : list value) :
  forall (t t' : tally) (seen : list value),
    for_each count_fuel items t = inr t' ->
    sound seen t ->
    sound (seen ++ items) t' /\ (sum_counts t' <= sum_counts t + ways items)%Z.
Proof.
  induction items as [| e rest IH]; simpl; intros t t' seen H Hs.
  - steps. subst t'. rewrite app_nil_r. split; [exact Hs |]. unfold ways. simpl. lia.
  - apply bind_inr in H as (t1 & Hstep & H).
    assert (Hs1 : sound (seen ++ [e]) t1 /\
                  (sum_counts t1 <= sum_counts t + (if is_way e then 1 else 0))%Z).
    { destruct (count_fuel_step _ _ _ Hstep) as [-> | (Hway & tag & Hcar & ->)].
      - split; [apply sound_more; exact Hs |]. destruct (is_way e); lia.
      - rewrite Hway, sum_counts_store. split; [| lia].
        intros tag' n Hin. apply In_store in Hin.
        assert (Hhere : exists x, In x (seen ++ [e]) /\ is_way x = true /\ carries_tag x tag).
        { exists e. split; [apply in_or_app; right; left; reflexivity | auto]. }
        destruct Hin as [Hin | (-> & [-> | (m & Hin)])].
        + apply (sound_more seen [e]) in Hs. exact (Hs _ _ Hin).
        + split; [| exact Hhere]. pose proof (count_of_nonneg seen t tag Hs). lia.
        + split; [pose proof (count_of_nonneg seen t tag Hs); lia |].
          apply (sound_more seen [e]) in Hs. exact (proj2 (Hs _ _ Hin)). }
    destruct Hs1 as (Hs1 & Hsum1).
    destruct (IH _ _ _ H Hs1) as (Hs' & Hsum').
    rewrite <- app_assoc in Hs'. simpl in Hs'. split; [exact Hs' |].
    rewrite ways_cons. lia.
Qed.

(** C10: in a report of the vegetation lookup, every tag of the tally has
    a positive count and is carried, as its 'natural' or 'landuse' tag, by
    an element of type 'way'; an element that is not of type 'way' leaves
    the tally as it is; [total_areas] is the number of elements of type
    'way'; and the counts of the tally sum to at most [total_areas]. *)
Theorem C10_total_areas_bounds_tally (data rep : value) :
  fuel_report data = inr rep ->
  exists (elements : list value) (fuel_types : tally) (total : Z),
    elements_of data = inr elements /\
    rep = VDict
            [ (VStr "source", VStr "OpenStreetMap via Overpass API");
              (VStr "fuel_types_found", tally_dict fuel_types);
              (VStr "total_areas", VInt total);
              (VStr "dominant_fuel", dominant_fuel fuel_types) ] /\
    (forall tag n,
        In (tag, n) fuel_types ->
        (0 < n)%Z /\
        exists e, In e elements /\ is_way e = true /\ carries_tag e tag) /\
    (forall e t t', is_way e = false -> count_fuel t e = inr t' -> t' = t) /\
    total = Z.of_nat (List.length (filter is_way elements)) /\
    (sum_counts fuel_types <= total)%Z.
Proof.
  unfold fuel_report, fuel_tally, total_areas, elements_of. intros H.
  apply bind_inr in H as (fuel_types & Htally & H).
  apply bind_inr in H as (total & Htotal & H).
  apply bind_inr in Htally as (elements & Hget & Htally).
  apply bind_inr in Htally as (items & Hiter & Htally).
  rewrite Hget in Htotal |- *. simpl in Htotal |- *. rewrite Hiter in Htotal |- *.
  simpl in Htotal. apply count_ways_spec in Htotal.
  destruct (for_each_count_fuel items [] fuel_types [] Htally) as (Hs & Hsum).
  { intros ? ? []. }
  exists items, fuel_types, total. steps. subst rep.
  repeat split.
  - apply (Hs tag n H).
  - apply (Hs tag n H).
  - intros e t t' Hnot Hstep.
    destruct (count_fuel_step _ _ _ Hstep) as [-> | (Hway & _)]; congruence.
  - exact Htotal.
  - simpl in Hsum. fold (ways items). lia.
Qed.

(** C10 on a response with four ways, one of them untagged, and a node. *)
Lemma C10_total_areas_bounds_tally_witness :
  exists fuel_types total,
    fuel_report example_elements
    = inr (VDict
             [ (VStr "source", VStr "OpenStreetMap via Overpass API");
               (VStr "fuel_types_found", tally_dict fuel_types);
               (VStr "total_areas", VInt total);
               (VStr "dominant_fuel", dominant_fuel fuel_types) ]) /\
    (sum_counts fuel_types <= total)%Z.
Proof.
  destruct (C10_total_areas_bounds_tally example_elements _ eq_refl)
    as (elements & fuel_types & total & _ & Hrep & _ & _ & _ & Hsum).
  exists fuel_types, total. split; [| exact Hsum].
  rewrite <- Hrep. reflexivity.
Defined.

(** ** Weather normalizer: period names *)

Lemma lower_app (a b : string) : lower (a ++ b) = (lower a ++ lower b)%string.
Proof.
  induction a as [| c a IH]; simpl; [reflexivity | rewrite IH; reflexivity].
Qed.

Lemma lower_app_inv (a b s : string) :
  lower s = (a ++ b)%string ->
  exists s1 s2, s = (s1 ++ s2)%string /\ lower s1 = a /\ lower s2 = b.
Proof.
  revert s. induction a as [| c a IH]; simpl; intros s H.
  - exists EmptyString, s. auto.
  - destruct s as [| c' s]; simpl in H; [discriminate |].
    injection H as Hc Hs. destruct (IH s Hs) as (s1 & s2 & -> & H1 & H2).
    exists (String c' s1), s2. simpl. rewrite H1, Hc. auto.
Qed.

Lemma is_prefix_spec (p s : string) :
  is_prefix p s = true <-> exists post, s = (p ++ post)%string.
Proof.
  revert s. induction p as [| a p IH]; simpl; intros s.
  - split; [exists s; reflexivity | reflexivity].
  - destruct s as [| b s].
    + split; [discriminate | intros (post & H); discriminate].
    + rewrite andb_true_iff, IH, Ascii.eqb_eq. split.
      * intros (-> & post & ->). exists post. reflexivity.
      * intros (post & [= -> ->]). split; [reflexivity | exists post; reflexivity].
Qed.

Lemma contains_spec (sub s : string) :
  contains sub s = true <-> exists pre post, s = (pre ++ sub ++ post)%string.
Proof.
  induction s as [| c s IH].
  - simpl. rewrite orb_false_r, is_prefix_spec. split.
    + intros (post & H). exists EmptyString, post. exact H.
    + intros (pre & post & H). destruct pre; [exists post; exact H | discriminate].
  - cbn [contains]. rewrite orb_true_iff, is_prefix_spec, IH. split.
    + intros [(post & H) | (pre & post & H)].
      * exists EmptyString, post. exact H.
      * exists (String c pre), post. simpl. rewrite H. reflexivity.
    + intros (pre & post & H). destruct pre as [| c' pre].
      * left. exists post. exact H.
      * right. injection H as _ H. exists pre, post. exact H.
Qed.

Lemma contains_night_lower (name : string) :
  contains "night" (lower name) = true <-> mentions_night name.
Proof.
  rewrite contains_spec. unfold mentions_night. split.
  - intros (pre' & post' & H).
    apply lower_app_inv in H as (pre & rest & -> & _ & H).
    apply lower_app_inv in H as (mid & post & -> & H & _).
    exists pre, mid, post. auto.
  - intros (pre & mid & post & -> & H).
    exists (lower pre), (lower post). rewrite !lower_app, H. reflexivity.
Qed.

Lemma normalize_period_entry (i : nat) (p hourly_periods entry : value)
    (normalized_periods : list value) :
  normalize_period i p hourly_periods normalized_periods = inr entry ->
  exists original_name name,
    getitem p "name" = inr original_name /\
    normalized_name i original_name normalized_periods = inr name /\
    entry_field "name" entry = Some (VStr name) /\
    entry_field "original_name" entry = Some original_name.
Proof.
  unfold normalize_period. intros H.
  apply bind_inr in H as (original_name & Hname & H).
  apply bind_inr in H as (name & Hnormalized & H).
  steps. subst entry. exists original_name, name. auto.
Qed.

Lemma iter_slice_3 (v window : value) (items : list value) :
  slice v 0 3 = inr window -> iter window = inr items ->
  exists all, iter v = inr all /\ items = firstn 3 all.
Proof.
  destruct v as [| | | | s | l | d]; simpl; intros Hs Hi; try raised Hs.
  - steps. subst window. simpl in Hi. steps. subst items.
    exists (chars s). split; [reflexivity |].
    destruct s as [| a [| b [| c [| c4 s]]]]; reflexivity.
  - steps. subst window. simpl in Hi. steps. subst items.
    exists l. split; reflexivity.
Qed.

(** What the loop makes of the three names, by position. *)
Lemma normalized_name_0 (original_name : value) (st : list value) (name : string) :
  normalized_name 0 original_name st = inr name ->
  exists s, original_name = VStr s /\
            name = if contains "night" (lower s) then "Tonight" else "Today".
Proof.
  simpl. intros H. apply bind_inr in H as (low & Hlow & H).
  destruct original_name; try (simpl in Hlow; raised Hlow).
  simpl in Hlow. steps. subst low. exists s. split; [reflexivity |].
  destruct (contains "night" (lower s)); steps; congruence.
Qed.

Lemma normalized_name_1 (original_name e0 : value) (rest : list value) (name : string) :
  normalized_name 1 original_name (e0 :: rest) = inr name ->
  name = if named e0 "Today" then "Tonight" else "Tomorrow".
Proof.
  simpl. intros H. apply bind_inr in H as (n0 & Hn0 & H).
  unfold named. destruct e0; try (simpl in Hn0; raised Hn0).
  simpl in Hn0 |- *. destruct (field d "name"); [| raised Hn0].
  steps. subst v. destruct (eq_str n0 "Today"); steps; congruence.
Qed.

Lemma normalized_name_2 (original_name e0 e1 : value) (rest : list value) (name : string) :
  normalized_name 2 original_name (e0 :: e1 :: rest) = inr name ->
  name = if named e1 "Tonight" then "Tomorrow" else "Tomorrow Night".
Proof.
  simpl. intros H. apply bind_inr in H as (n1 & Hn1 & H).
  unfold named. destruct e1; try (simpl in Hn1; raised Hn1).
  simpl in Hn1 |- *. destruct (field d "name"); [| raised Hn1].
  steps. subst v. destruct (eq_str n1 "Tonight"); steps; congruence.
Qed.

Lemma normalize_loop_3 (items : list value) (hourly_periods : value) (out : list value) :
  (List.length items <= 3)%nat ->
  normalize_loop 0 items hourly_periods [] = inr out ->
  Forall2 made_from items out /\
  (forall e0, nth_error out 0 = Some e0 ->
     exists s, entry_field "original_name" e0 = Some (VStr s) /\
               entry_field "name" e0
               = Some (VStr (if contains "night" (lower s) then "Tonight" else "Today"))) /\
  (forall e0 e1, nth_error out 0 = Some e0 -> nth_error out 1 = Some e1 ->
     entry_field "name" e1
     = Some (VStr (if named e0 "Today" then "Tonight" else "Tomorrow"))) /\
  (forall e1 e2, nth_error out 1 = Some e1 -> nth_error out 2 = Some e2 ->
     entry_field "name" e2
     = Some (VStr (if named e1 "Tonight" then "Tomorrow" else "Tomorrow Night"))).
Proof.
  intros Hlen H.
  destruct items as [| p0 [| p1 [| p2 [| p3 rest]]]]; simpl in Hlen; try lia;
    simpl in H; steps; subst out;
    repeat match goal with
      | E : normalize_period _ _ _ _ = inr _ |- _ =>
          apply normalize_period_entry in E;
          destruct E as (? & ? & ? & ? & ? & ?)
      end;
    repeat match goal with
      | E : normalized_name 0 _ _ = inr _ |- _ =>
          apply normalized_name_0 in E; destruct E as (? & ? & ?)
      | E : normalized_name 1 _ _ = inr _ |- _ => apply normalized_name_1 in E
      | E : normalized_name 2 _ _ = inr _ |- _ => apply normalized_name_2 in E
      end; subst;
    (split; [repeat constructor; eexists; eauto |]);
    (split; [| split]); simpl; intros;
    repeat match goal with
      | E : Some _ = Some _ |- _ => injection E as E
      | E : None = Some _ |- _ => discriminate E
      end; subst; eauto.
Qed.

Lemma named_name_is (entry : value) (s : string) :
  named entry s = true <-> name_is entry s.
Proof.
  unfold named, name_is. destruct (entry_field "name" entry) as [n |].
  - destruct n; simpl; try (split; [discriminate | intros [=]]).
    rewrite String.eqb_eq. split; [intros -> | intros [= ->]]; reflexivity.
  - split; discriminate.
Qed.

Lemma named_false (entry : value) (s : string) :
  named entry s = false <-> ~ name_is entry s.
Proof.
  rewrite <- named_name_is. destruct (named entry s); split; congruence.
Qed.

(** C1: the normalizer keeps the first three periods of the forecast
    response, at most, and names them by position: entry 0 is 'Tonight'
    when its original name mentions "night" in any case, else 'Today';
    entry 1 is 'Tonight' when entry 0 is 'Today', else 'Tomorrow'; entry 2
    is 'Tomorrow' when entry 1 is 'Tonight', else 'Tomorrow Night'.  Three
    entries are therefore named Today, Tonight, Tomorrow or Tonight,
    Tomorrow, Tomorrow Night. *)
Theorem C1_period_names_are_positional (forecast_data hourly_data rep : value) :
  normalize_forecast forecast_data hourly_data = inr rep ->
  exists periods out : list value,
    upstream_periods forecast_data = inr periods /\
    rep = VDict [ (VStr "source", VStr "National Weather Service (NOAA)");
                  (VStr "forecast", VList out) ] /\
    Forall2 made_from (firstn 3 periods) out /\
    (List.length out <= 3)%nat /\
    (forall e0,
        nth_error out 0 = Some e0 ->
        exists s,
          entry_field "original_name" e0 = Some (VStr s) /\
          (mentions_night s -> name_is e0 "Tonight") /\
          (~ mentions_night s -> name_is e0 "Today")) /\
    (forall e0 e1,
        nth_error out 0 = Some e0 -> nth_error out 1 = Some e1 ->
        (name_is e0 "Today" -> name_is e1 "Tonight") /\
        (~ name_is e0 "Today" -> name_is e1 "Tomorrow")) /\
    (forall e1 e2,
        nth_error out 1 = Some e1 -> nth_error out 2 = Some e2 ->
        (name_is e1 "Tonight" -> name_is e2 "Tomorrow") /\
        (~ name_is e1 "Tonight" -> name_is e2 "Tomorrow Night")) /\
    (List.length out = 3%nat ->
     map (entry_field "name") out
     = [ Some (VStr "Today"); Some (VStr "Tonight"); Some (VStr "Tomorrow") ] \/
     map (entry_field "name") out
     = [ Some (VStr "Tonight"); Some (VStr "Tomorrow"); Some (VStr "Tomorrow Night") ]).
Proof.
  unfold normalize_forecast, upstream_periods. intros H.
  apply bind_inr in H as (properties & Hprop & H).
  apply bind_inr in H as (all_periods & Hall & H).
  apply bind_inr in H as (window & Hslice & H).
  apply bind_inr in H as (hp & _ & H).
  apply bind_inr in H as (hourly_periods & _ & H).
  apply bind_inr in H as (items & Hiter & H).
  apply bind_inr in H as (out & Hloop & H).
  destruct (iter_slice_3 _ _ _ Hslice Hiter) as (periods & Hperiods & ->).
  rewrite Hprop. simpl. rewrite Hall. simpl.
  exists periods, out. split; [exact Hperiods |].
  split; [steps; congruence |].
  assert (Hlen : (List.length (firstn 3 periods) <= 3)%nat)
    by (rewrite length_firstn; lia).
  destruct (normalize_loop_3 _ _ _ Hlen Hloop) as (Hmade & H0 & H1 & H2).
  assert (Hout : (List.length out <= 3)%nat)
    by (rewrite <- (Forall2_length Hmade); exact Hlen).
  split; [exact Hmade |]. split; [exact Hout |].
  split; [| split; [| split]].
  - intros e0 E. destruct (H0 e0 E) as (s & Ho & Hn). exists s.
    split; [exact Ho |]. unfold name_is. rewrite Hn.
    rewrite <- contains_night_lower.
    destruct (contains "night" (lower s)); split; congruence.
  - intros e0 e1 E0 E1. pose proof (H1 e0 e1 E0 E1) as Hn.
    destruct (named e0 "Today") eqn:T.
    + apply named_name_is in T. split; [intros _; exact Hn | contradiction].
    + apply named_false in T. split; [contradiction | intros _; exact Hn].
  - intros e1 e2 E1 E2. pose proof (H2 e1 e2 E1 E2) as Hn.
    destruct (named e1 "Tonight") eqn:T.
    + apply named_name_is in T. split; [intros _; exact Hn | contradiction].
    + apply named_false in T. split; [contradiction | intros _; exact Hn].
  - intros L. destruct out as [| e0 [| e1 [| e2 [| e3 out]]]]; try discriminate L.
    destruct (H0 e0 eq_refl) as (s & _ & Hn0).
    pose proof (H1 e0 e1 eq_refl eq_refl) as Hn1.
    pose proof (H2 e1 e2 eq_refl eq_refl) as Hn2.
    unfold named in Hn1. rewrite Hn0 in Hn1. unfold named in Hn2.
    destruct (contains "night" (lower s)); simpl in Hn1; rewrite Hn1 in Hn2;
      simpl in Hn2; simpl; rewrite Hn0, Hn1, Hn2; auto.
Qed.

(** C1 on a forecast of four periods that starts at night. *)
Lemma C1_period_names_are_positional_witness :
  exists out,
    normalize_forecast
      (example_forecast [ "Overnight"; "Friday"; "Friday NIGHT"; "Saturday" ])
      (example_forecast [])
    = inr (VDict [ (VStr "source", VStr "National Weather Service (NOAA)");
                   (VStr "forecast", VList out) ]) /\
    map (entry_field "name") out
    = [ Some (VStr "Tonight"); Some (VStr "Tomorrow"); Some (VStr "Tomorrow Night") ].
Proof.
  destruct (C1_period_names_are_positional
              (example_forecast [ "Overnight"; "Friday"; "Friday NIGHT"; "Saturday" ])
              (example_forecast []) _ eq_refl)
    as (periods & out & _ & Hrep & _ & _ & _ & _ & _ & _).
  injection Hrep as Hout. exists out. rewrite <- Hout. split; reflexivity.
Defined.

(** ** Weather normalizer: humidity *)

(** A humidity that the period itself supplies is kept whatever the hourly
    feed holds. *)
Lemma backfill_keeps_own (i : nat) (hourly_periods humidity : value) :
  is_None humidity = false ->
  backfill_humidity i hourly_periods humidity = inr humidity.
Proof.
  unfold backfill_humidity. intros ->. reflexivity.
Qed.

(** A wrapper is read through its ['value'], also when that is [0]. *)
Lemma own_humidity_wrapped (p wrapper : dict) (x : value) :
  field p "relativeHumidity" = Some (VDict wrapper) ->
  field wrapper "value" = Some x ->
  own_humidity (VDict p) = inr x.
Proof.
  unfold own_humidity. simpl. intros -> Hx. simpl.
  destruct wrapper; [discriminate Hx |]. simpl. rewrite Hx. reflexivity.
Qed.

(** A plain value is read as it is when it is truthy, and as absent when
    it is falsy. *)
Lemma own_humidity_plain (p : dict) (x : value) :
  field p "relativeHumidity" = Some x ->
  isinstance_dict x = false ->
  own_humidity (VDict p) = inr (if truthy x then x else VNone).
Proof.
  unfold own_humidity. simpl. intros -> Hx. simpl.
  destruct (truthy x); [| reflexivity]. destruct x; try reflexivity; discriminate.
Qed.

(** C2 fails on the code for a plain humidity of 0: the period's own value
    is taken as absent, so the hourly feed replaces it (here by 55), and
    without an hourly value the entry reads 'N/A'; the same 0 inside a
    wrapper is kept. *)
Theorem C2_plain_zero_humidity_is_dropped :
  let plain_zero := humid_period [ (VStr "relativeHumidity", VInt 0) ] in
  let wrapped_zero :=
    humid_period [ (VStr "relativeHumidity", VDict [ (VStr "value", VInt 0) ]) ] in
  let hourly := feed [ VDict [ (VStr "relativeHumidity", VInt 55) ] ] in
  humidities (normalize_forecast (feed [ plain_zero ]) hourly)
  = [ Some (VInt 55) ] /\
  humidities (normalize_forecast (feed [ plain_zero ]) (feed []))
  = [ Some (VStr "N/A") ] /\
  humidities (normalize_forecast (feed [ wrapped_zero ]) hourly)
  = [ Some (VInt 0) ].
Proof.
  repeat split.
Qed.

(** ** Burn assessor *)

Lemma lt_int_num (v : value) (n : Z) (q : Q) :
  num_of v = Some q -> lt_int v n = inr (Qltb q (inject_Z n)).
Proof.
  unfold lt_int. intros ->. reflexivity.
Qed.

Lemma gt_int_num (v : value) (n : Z) (q : Q) :
  num_of v = Some q -> gt_int v n = inr (Qltb (inject_Z n) q).
Proof.
  unfold gt_int. intros ->. reflexivity.
Qed.

Lemma isinstance_int_float_num (v : value) :
  isinstance_int_float v = match num_of v with Some _ => true | None => false end.
Proof.
  destruct v; reflexivity.
Qed.

(** Each threshold decides on its own whether its concern is listed. *)
Lemma triggered_each (wind_value : Z) (humidity : value) (temperature : Q) :
  let found := triggered wind_value humidity temperature in
  (In high_wind found <-> (15 < wind_value)%Z) /\
  (In low_humidity found <->
     exists h, num_of humidity = Some h /\ (h < inject_Z 30)%Q) /\
  (In high_temperature found <-> (inject_Z 85 < temperature)%Q) /\
  (found = [] <->
     ~ (15 < wind_value)%Z /\
     ~ (exists h, num_of humidity = Some h /\ (h < inject_Z 30)%Q) /\
     ~ (inject_Z 85 < temperature)%Q).
Proof.
  unfold triggered.
  assert (Hw : (15 <? wind_value)%Z = true <-> (15 < wind_value)%Z)
    by apply Z.ltb_lt.
  assert (Hh : match num_of humidity with
               | Some h => Qltb h (inject_Z 30)
               | None => false
               end = true <->
               exists h, num_of humidity = Some h /\ (h < inject_Z 30)%Q).
  { destruct (num_of humidity) as [h |].
    - rewrite Qltb_lt. split; [intros H; exists h; auto | intros (h' & [= <-] & H); exact H].
    - split; [discriminate | intros (h' & [=] & _)]. }
  pose proof (Qltb_lt (inject_Z 85) temperature) as Ht.
  destruct (15 <? wind_value)%Z, (num_of humidity) as [h |];
    try destruct (Qltb h (inject_Z 30));
    destruct (Qltb (inject_Z 85) temperature);
    cbn [app In]; unfold high_wind, low_humidity, high_temperature;
    repeat split; intros;
    repeat match goal with
      | H : _ \/ _ |- _ => destruct H
      | H : _ /\ _ |- _ => destruct H
      | H : False |- _ => destruct H
      | H : _ :: _ = [] |- _ => discriminate H
      | H : @eq string _ _ |- _ => discriminate H
      end;
    try tauto; try (intuition congruence).
Qed.

(** C4: for a weather report that is not the error variant, whose first
    period has a numeric temperature and a wind text that parses to
    [wind_value], the assessor returns the concerns triggered by
    [wind_value > 15], by a numeric humidity [< 30] and by a temperature
    [> 85], in that order, or the single default concern when none is
    triggered, together with the fixed recommendation. *)
Theorem C4_concerns_in_fixed_order
    (weather_data current : dict) (later : list value)
    (temp : value) (temperature : Q) (wind : string) (wind_value : Z) :
  field weather_data "error" = None ->
  field weather_data "forecast" = Some (VList (VDict current :: later)) ->
  field current "temperature" = Some temp ->
  num_of temp = Some temperature ->
  field current "wind_speed" = Some (VStr wind) ->
  parse_wind (VStr wind) = inr wind_value ->
  let humidity :=
    match field current "humidity" with Some h => h | None => VStr "N/A" end in
  let found := triggered wind_value humidity temperature in
  let concerns := match found with [] => [ moderate ] | _ => found end in
  _assess_burn_conditions (VDict weather_data)
  = inr (VDict [ (VStr "concerns", VList (map VStr concerns));
                 (VStr "recommendation", VStr recommendation) ]) /\
  (In high_wind found <-> (15 < wind_value)%Z) /\
  (In low_humidity found <->
     exists h, num_of humidity = Some h /\ (h < inject_Z 30)%Q) /\
  (In high_temperature found <-> (inject_Z 85 < temperature)%Q) /\
  (found = [] <->
     ~ (15 < wind_value)%Z /\
     ~ (exists h, num_of humidity = Some h /\ (h < inject_Z 30)%Q) /\
     ~ (inject_Z 85 < temperature)%Q).
Proof.
  intros Herr Hforecast Htemp Hnum Hwind Hparse humidity found concerns.
  split; [| apply triggered_each].
  unfold _assess_burn_conditions. cbn [py_in bind ret]. rewrite Herr.
  cbn [bind ret]. unfold compute_concerns.
  cbn [getitem]. rewrite Hforecast. cbn [bind ret getindex nth_error getitem].
  rewrite Htemp. cbn [bind ret get]. fold humidity. rewrite Hwind. cbn [bind ret].
  rewrite Hparse. cbn [bind ret].
  rewrite (gt_int_num _ _ _ Hnum), isinstance_int_float_num.
  subst concerns found. unfold triggered, append_if.
  rewrite Z.gtb_ltb.
  destruct (num_of humidity) as [h |] eqn:Hh.
  - rewrite (lt_int_num _ _ _ Hh). cbn [bind ret try_except].
    destruct (15 <? wind_value)%Z, (Qltb h (inject_Z 30)),
      (Qltb (inject_Z 85) temperature); reflexivity.
  - cbn [bind ret try_except].
    destruct (15 <? wind_value)%Z, (Qltb (inject_Z 85) temperature); reflexivity.
Qed.

(** C4 on the two reports wind 20 mph, humidity 25, temperature 90 and
    wind 5 mph, humidity 60, temperature 70. *)
Lemma C4_concerns_in_fixed_order_witness :
  _assess_burn_conditions (VDict (example_report "20 mph" 25 90))
  = inr (VDict [ (VStr "concerns",
                  VList [ VStr high_wind; VStr low_humidity; VStr high_temperature ]);
                 (VStr "recommendation", VStr recommendation) ]) /\
  _assess_burn_conditions (VDict (example_report "5 mph" 60 70))
  = inr (VDict [ (VStr "concerns", VList [ VStr moderate ]);
                 (VStr "recommendation", VStr recommendation) ]).
Proof.
  split.
  - exact (proj1 (C4_concerns_in_fixed_order (example_report "20 mph" 25 90) _ _ _ _ _ _
                    eq_refl eq_refl eq_refl eq_refl eq_refl eq_refl)).
  - exact (proj1 (C4_concerns_in_fixed_order (example_report "5 mph" 60 70) _ _ _ _ _ _
                    eq_refl eq_refl eq_refl eq_refl eq_refl eq_refl)).
Defined.

(** On a dict the assessor returns, whatever the dict holds. *)
Lemma assessor_returns (weather_data : dict) :
  exists v, _assess_burn_conditions (VDict weather_data) = inr v.
Proof.
  unfold _assess_burn_conditions. cbn [py_in bind ret].
  destruct (field weather_data "error"); cbn [bind ret]; eauto.
Qed.

(** C5: on a weather dict the assessor always returns: the fixed
    'unavailable' record when the dict has an 'error' key; otherwise,
    when computing the concerns raises [e], the record whose message is
    'Unable to assess conditions: ' followed by [str(e)]; this is what
    happens when the first token of the wind text has no digit. *)
Theorem C5_assessor_never_raises (weather_data : dict) :
  (exists v, _assess_burn_conditions (VDict weather_data) = inr v) /\
  (field weather_data "error" <> None ->
   _assess_burn_conditions (VDict weather_data)
   = inr (assessment "Unable to assess - weather data unavailable")) /\
  (field weather_data "error" = None ->
   forall e,
     compute_concerns (VDict weather_data) = inl e ->
     _assess_burn_conditions (VDict weather_data)
     = inr (assessment ("Unable to assess conditions: " ++ exn_str e)%string)) /\
  (field weather_data "error" = None ->
   forall (current : dict) (later : list value) (temp : value)
          (wind first : string) (rest : list string),
     field weather_data "forecast" = Some (VList (VDict current :: later)) ->
     field current "temperature" = Some temp ->
     field current "wind_speed" = Some (VStr wind) ->
     split wind = first :: rest ->
     filter_digits first = "" ->
     _assess_burn_conditions (VDict weather_data)
     = inr (assessment
              "Unable to assess conditions: invalid literal for int() with base 10: ''")).
Proof.
  split; [apply assessor_returns |].
  unfold _assess_burn_conditions. cbn [py_in bind ret].
  destruct (field weather_data "error") as [x |] eqn:Herr; cbn [bind ret].
  - split; [reflexivity |]. split; discriminate.
  - split; [congruence |]. split.
    + intros _ e ->. reflexivity.
    + intros _ current later temp wind first rest Hforecast Htemp Hwind Hsplit Hdigits.
      unfold compute_concerns. cbn [getitem]. rewrite Hforecast.
      cbn [bind ret getindex nth_error getitem]. rewrite Htemp. cbn [bind ret get].
      rewrite Hwind. cbn [bind ret]. unfold parse_wind. cbn [str_split bind ret].
      rewrite Hsplit. cbn [bind ret]. rewrite Hdigits. reflexivity.
Qed.

(** A wind text without a digit in its first token, and a report without
    periods, both end in the degraded record. *)
Example assess_unparseable_wind :
  _assess_burn_conditions (VDict (example_report "Calm wind" 25 90))
  = inr (assessment
           "Unable to assess conditions: invalid literal for int() with base 10: ''") /\
  _assess_burn_conditions
    (VDict [ (VStr "source", VStr "National Weather Service (NOAA)");
             (VStr "forecast", VList []) ])
  = inr (assessment "Unable to assess conditions: list index out of range").
Proof.
  split; reflexivity.
Qed.

(** ** The request boundary *)

(** When the request body is a JSON object that has no 'city', or a
    'city' that is empty (falsy), the view answers 400 with 'City name is
    required' and the log of outbound calls is left as it was: neither
    the geocoder nor any other collaborator is called. *)
Lemma object_without_city_is_rejected (w : world) (data : dict) (log : list request) :
  field data "city" = None \/
  (exists city, field data "city" = Some city /\ truthy city = false) ->
  App.analyze_location w (VDict data) log
  = (inr (App.error_body "City name is required", 400%Z), log).
Proof.
  unfold App.analyze_location, io_bind, lift, get.
  intros [-> | (city & -> & Hcity)]; cbn [ret]; [| rewrite Hcity]; reflexivity.
Qed.

(** C8 (a defect of the code): a request whose JSON body is [null], or a
    list, names no place, and the view does not reject it: where it
    answers 400 for an object without a city, here [data.get] raises
    AttributeError, outside the [try], so the view returns no answer of
    its own, neither 400 nor 500.  No outbound call is made. *)
Theorem C8_body_without_object_is_not_rejected (w : world) (log : list request) :
  App.analyze_location w (VDict []) log
  = (inr (App.error_body "City name is required", 400%Z), log) /\
  App.analyze_location w VNone log
  = (inl (Raise AttributeError "'NoneType' object has no attribute 'get'"), log) /\
  App.analyze_location w (VList []) log
  = (inl (Raise AttributeError "'list' object has no attribute 'get'"), log).
Proof.
  split; [apply object_without_city_is_rejected; left; reflexivity |].
  split; reflexivity.
Qed.

(** C9: for a non-empty place name that the geocoder does not find,
    [_geocode_city] raises [ValueError] with 'Could not find location:'
    and the name; [analyze_location] lets it through, having made the
    geocoding call only; and the view answers 500 with that message as
    the error body, so no report, whole or partial, is returned. *)
Theorem C9_unknown_place_is_a_server_error
    (w : world) (data : dict) (city : string) (log : list request) :
  field data "city" = Some (VStr city) ->
  city <> "" ->
  geocode w log (VStr city) = inr None ->
  let not_found := Raise ValueError ("Could not find location: " ++ city) in
  let calls := log ++ [ Geocode (VStr city) ] in
  _geocode_city w (VStr city) log = (inl not_found, calls) /\
  BurnAgent.analyze_location w (VStr city) log = (inl not_found, calls) /\
  App.analyze_location w (VDict data) log
  = (inr (App.error_body ("Could not find location: " ++ city), 500%Z), calls).
Proof.
  intros Hcity Hne Hgeo not_found calls.
  assert (G : _geocode_city w (VStr city) log = (inl not_found, calls)).
  { unfold _geocode_city, io_bind, call_geocode. rewrite Hgeo. reflexivity. }
  assert (A : BurnAgent.analyze_location w (VStr city) log = (inl not_found, calls)).
  { unfold BurnAgent.analyze_location, io_bind. rewrite G. reflexivity. }
  split; [exact G |]. split; [exact A |].
  unfold App.analyze_location, io_bind, lift, get. rewrite Hcity. cbn [ret].
  assert (T : truthy (VStr city) = true).
  { simpl. destruct city; [congruence | reflexivity]. }
  rewrite T. cbn [negb]. unfold io_try, io_bind. rewrite A. reflexivity.
Qed.

(** C9 on a place that the geocoder does not find. *)
Lemma C9_unknown_place_is_a_server_error_witness :
  App.analyze_location nowhere (VDict [ (VStr "city", VStr "Atlantis") ]) []
  = (inr (App.error_body "Could not find location: Atlantis", 500%Z),
     [ Geocode (VStr "Atlantis") ]).
Proof.
  refine (proj2 (proj2 (C9_unknown_place_is_a_server_error
                          nowhere [ (VStr "city", VStr "Atlantis") ] "Atlantis" []
                          eq_refl _ eq_refl))).
  discriminate.
Defined.

(** ** Section-local failures *)

Lemma io_bind_inr {A B} (m : io A) (k : A -> io B) (log log' : list request) (b : B) :
  io_bind m k log = (inr b, log') ->
  exists a log1, m log = (inr a, log1) /\ k a log1 = (inr b, log').
Proof.
  unfold io_bind. destruct (m log) as [[e | a] log1]; intros H.
  - discriminate H.
  - exists a, log1. auto.
Qed.

(** The weather lookup returns a dict, and so does [_get_weather_data]. *)
Lemma weather_lookup_dict (w : world) (lat lon v : value) (log log' : list request) :
  weather_lookup w lat lon log = (inr v, log') -> isinstance_dict v = true.
Proof.
  unfold weather_lookup. intros H.
  repeat (apply io_bind_inr in H; destruct H as (? & ? & _ & H)).
  unfold lift in H. injection H as H _. unfold normalize_forecast in H.
  steps. subst v. reflexivity.
Qed.

(** A weather section that is not the error record was made by
    [normalize_forecast] from two decoded responses. *)
Lemma weather_section_is_normalized
    (w : world) (lat lon v : value) (log log' : list request) :
  weather_lookup w lat lon log = (inr v, log') ->
  exists forecast_data hourly_data, normalize_forecast forecast_data hourly_data = inr v.
Proof.
  unfold weather_lookup. intros H.
  repeat (apply io_bind_inr in H; destruct H as (? & ? & _ & H)).
  unfold lift in H. injection H as H _. eauto.
Qed.

Lemma _get_weather_data_dict (w : world) (lat lon : value) (log : list request) :
  exists d, fst (_get_weather_data w lat lon log) = inr (VDict d).
Proof.
  unfold _get_weather_data, io_try.
  destruct (weather_lookup w lat lon log) as [[e | v] log'] eqn:E; simpl.
  - unfold error_record. eauto.
  - apply weather_lookup_dict in E. destruct v; try discriminate E. eauto.
Qed.

Lemma same_outcome_lift {A} (r : result A) : same_outcome (lift r) (lift r).
Proof. intros log log'. reflexivity. Qed.

Lemma same_outcome_bind {A B} (m m' : io A) (k k' : A -> io B) :
  same_outcome m m' ->
  (forall a, same_outcome (k a) (k' a)) ->
  same_outcome (io_bind m k) (io_bind m' k').
Proof.
  intros Hm Hk log log'. unfold io_bind. specialize (Hm log log').
  destruct (m log) as [[e | a] l1], (m' log') as [[e' | a'] l1']; simpl in Hm;
    try discriminate Hm; injection Hm as <-; [reflexivity | apply Hk].
Qed.

Lemma same_outcome_try {A} (body body' : io A) (handler : exn -> A) :
  same_outcome body body' ->
  same_outcome (io_try body handler) (io_try body' handler).
Proof.
  intros Hb log log'. unfold io_try. specialize (Hb log log').
  destruct (body log) as [[e | a] l1], (body' log') as [[e' | a'] l1']; simpl in Hb;
    try discriminate Hb; injection Hb as <-; reflexivity.
Qed.

Lemma same_outcome_get (k : lookup_kind) (w w' : world) (req : request) :
  same_replies k w w' -> asked_by req = Some k ->
  same_outcome (call_get w req) (call_get w' req).
Proof.
  intros H Hk log log'. unfold call_get. simpl. apply H. exact Hk.
Qed.

(** Builds [same_outcome] along the binds of a lookup. *)
Ltac alike H :=
  repeat first
    [ apply same_outcome_try
    | apply same_outcome_bind; [| intros ?]
    | apply same_outcome_lift
    | apply (same_outcome_get _ _ _ _ H); reflexivity ].

(** What a lookup returns depends on the replies to its own requests only. *)
Lemma own_replies_decide (k : lookup_kind) (w w' : world) (lat lon : value) :
  same_replies k w w' ->
  match k with
  | Weather => same_outcome (_get_weather_data w lat lon) (_get_weather_data w' lat lon)
  | Topography =>
      same_outcome (_get_topography_data w lat lon) (_get_topography_data w' lat lon)
  | Fuel => same_outcome (_get_fuel_sources w lat lon) (_get_fuel_sources w' lat lon)
  | Water => same_outcome (_get_water_sources w lat lon) (_get_water_sources w' lat lon)
  end.
Proof.
  intros H. destruct k.
  - unfold _get_weather_data, weather_lookup. alike H.
  - unfold _get_topography_data, topography_lookup. alike H.
  - unfold _get_fuel_sources, fuel_lookup. alike H.
  - unfold _get_water_sources, water_lookup. alike H.
Qed.

Lemma io_try_section (prefix : string) (body : io value) (log : list request) :
  exists section log',
    io_try body (error_record prefix) log = (inr section, log') /\
    section_of prefix (body log) section.
Proof.
  unfold io_try, section_of. destruct (body log) as [[e | v] log']; simpl; eauto.
Qed.

(** C7, as the claim words it, fails for the burn assessment: two worlds
    that differ only in whether the weather lookup's first request times
    out give the same location, topography, fuel and water sections, but
    when the weather lookup fails the burn assessment is the 'unavailable'
    record, not the assessment that the report has when it succeeds. *)
Lemma C7_assessment_follows_failed_weather :
  let up := example_world true in
  let down := example_world false in
  let city := VStr "Boise" in
  same_replies Topography up down /\
  same_replies Fuel up down /\
  same_replies Water up down /\
  exists r_up r_down,
    fst (BurnAgent.analyze_location up city []) = inr r_up /\
    fst (BurnAgent.analyze_location down city []) = inr r_down /\
    entry_field "weather" r_down
    = Some (error_record "Weather data unavailable: "
              (Raise (OtherError "ConnectTimeout") "timed out")) /\
    entry_field "location" r_down = entry_field "location" r_up /\
    entry_field "topography" r_down = entry_field "topography" r_up /\
    entry_field "fuel_sources" r_down = entry_field "fuel_sources" r_up /\
    entry_field "water_sources" r_down = entry_field "water_sources" r_up /\
    entry_field "burn_assessment" r_up
    = Some (VDict [ (VStr "concerns", VList [ VStr moderate ]);
                    (VStr "recommendation", VStr recommendation) ]) /\
    entry_field "burn_assessment" r_down
    = Some (assessment "Unable to assess - weather data unavailable") /\
    entry_field "burn_assessment" r_down <> entry_field "burn_assessment" r_up.
Proof.
  cbv zeta.
  split; [| split; [| split]];
    try (intros log log' req Hreq; destruct req; try discriminate Hreq; reflexivity).
  eexists. eexists.
  split; [vm_compute; reflexivity |]. split; [vm_compute; reflexivity |].
  repeat split; discriminate.
Qed.

(** C7 (amended): when geocoding succeeds, each of the four lookups
    returns: its section is the value of its [try] body or, when the body
    raised, the record [{'error': '<source> data unavailable: ' + str(e)}];
    [analyze_location] returns the report with its six keys; the burn
    assessment is the assessor's result on the weather section as
    returned; and each lookup's section stays the same in any world that
    answers that lookup's own requests alike, however the other lookups
    fare there. *)
Theorem C7_lookup_failures_stay_local
    (w : world) (city : value) (location : Location) (log : list request) :
  geocode w log city = inr (Some location) ->
  let lat := VFloat (latitude location) in
  let lon := VFloat (longitude location) in
  let location_data :=
    VDict [ (VStr "source", VStr "Nominatim (OpenStreetMap)");
            (VStr "name", VStr (address location));
            (VStr "latitude", lat);
            (VStr "longitude", lon) ] in
  let log0 := log ++ [ Geocode city ] in
  exists (weather topography fuel water assessment : value)
         (log1 log2 log3 log4 : list request),
    _get_weather_data w lat lon log0 = (inr weather, log1) /\
    section_of "Weather data unavailable: " (weather_lookup w lat lon log0) weather /\
    _get_topography_data w lat lon log1 = (inr topography, log2) /\
    section_of "Topography data unavailable: " (topography_lookup w lat lon log1)
      topography /\
    _get_fuel_sources w lat lon log2 = (inr fuel, log3) /\
    section_of "Fuel source data unavailable: " (fuel_lookup w lat lon log2) fuel /\
    _get_water_sources w lat lon log3 = (inr water, log4) /\
    section_of "Water source data unavailable: " (water_lookup w lat lon log3) water /\
    _assess_burn_conditions weather = inr assessment /\
    BurnAgent.analyze_location w city log
    = (inr (report location_data weather topography fuel water assessment), log4) /\
    (forall w' log',
        same_replies Weather w w' ->
        fst (_get_weather_data w' lat lon log') = inr weather) /\
    (forall w' log',
        same_replies Topography w w' ->
        fst (_get_topography_data w' lat lon log') = inr topography) /\
    (forall w' log',
        same_replies Fuel w w' ->
        fst (_get_fuel_sources w' lat lon log') = inr fuel) /\
    (forall w' log',
        same_replies Water w w' ->
        fst (_get_water_sources w' lat lon log') = inr water).
Proof.
  intros Hgeo lat lon location_data log0.
  destruct (io_try_section "Weather data unavailable: " (weather_lookup w lat lon) log0)
    as (weather & log1 & Hw & Sw).
  destruct (io_try_section "Topography data unavailable: "
              (topography_lookup w lat lon) log1) as (topography & log2 & Ht & St).
  destruct (io_try_section "Fuel source data unavailable: " (fuel_lookup w lat lon) log2)
    as (fuel & log3 & Hf & Sf).
  destruct (io_try_section "Water source data unavailable: " (water_lookup w lat lon) log3)
    as (water & log4 & Ha & Sa).
  fold (_get_weather_data w lat lon) in Hw.
  fold (_get_topography_data w lat lon) in Ht.
  fold (_get_fuel_sources w lat lon) in Hf.
  fold (_get_water_sources w lat lon) in Ha.
  destruct (_get_weather_data_dict w lat lon log0) as (d & Hd).
  rewrite Hw in Hd. simpl in Hd. injection Hd as ->.
  destruct (assessor_returns d) as (assessment & Hassess).
  exists (VDict d), topography, fuel, water, assessment, log1, log2, log3, log4.
  repeat (split; [assumption |]).
  split.
  { unfold BurnAgent.analyze_location, _geocode_city, io_bind, call_geocode, lift, io_ret.
    rewrite Hgeo. cbn [getitem field lookup key_eqb String.eqb Ascii.eqb Bool.eqb ret].
    fold lat lon log0. rewrite Hw, Ht, Hf, Ha, Hassess. reflexivity. }
  split; [| split; [| split]]; intros w' log' Hsame.
  - rewrite <- (own_replies_decide Weather w w' lat lon Hsame log0 log'), Hw. reflexivity.
  - rewrite <- (own_replies_decide Topography w w' lat lon Hsame log1 log'), Ht.
    reflexivity.
  - rewrite <- (own_replies_decide Fuel w w' lat lon Hsame log2 log'), Hf. reflexivity.
  - rewrite <- (own_replies_decide Water w w' lat lon Hsame log3 log'), Ha. reflexivity.
Qed.

(** C7 in the world whose grid point request times out: the report has
    the weather error record and the degraded assessment, and its
    topography section is the one of the world without the timeout. *)
Lemma C7_lookup_failures_stay_local_witness :
  exists topography fuel water,
    fst (BurnAgent.analyze_location (example_world false) (VStr "Boise") [])
    = inr (report
             (VDict [ (VStr "source", VStr "Nominatim (OpenStreetMap)");
                      (VStr "name", VStr (address example_location));
                      (VStr "latitude", VFloat (latitude example_location));
                      (VStr "longitude", VFloat (longitude example_location)) ])
             (error_record "Weather data unavailable: "
                (Raise (OtherError "ConnectTimeout") "timed out"))
             topography fuel water
             (assessment "Unable to assess - weather data unavailable")) /\
    fst (_get_topography_data (example_world true) (VFloat (latitude example_location))
           (VFloat (longitude example_location)) [])
    = inr topography.
Proof.
  destruct (C7_lookup_failures_stay_local (example_world false) (VStr "Boise") example_location []
              eq_refl)
    as (weather & topography & fuel & water & assessment & log1 & log2 & log3 & log4
        & Hw & _ & _ & _ & _ & _ & _ & _ & Hassess & Hreport & _ & Htopography & _).
  exists topography, fuel, water. split.
  - rewrite Hreport. simpl fst. injection Hw as <- _.
    injection Hassess as <-. reflexivity.
  - apply Htopography.
    intros log log' req Hreq. destruct req; try discriminate Hreq. reflexivity.
Defined.

(* ================================================================= *)
(** * Further properties *)

(** ** Wind text *)

Lemma split_aux_leading (lead s : string) :
  all_space lead = true -> split_aux (lead ++ s) None = split_aux s None.
Proof.
  induction lead as [| c lead IH]; simpl; [reflexivity |].
  intros H. apply andb_true_iff in H as (Hc & Hl). rewrite Hc. exact (IH Hl).
Qed.

Lemma split_aux_token (tok rest cur : string) :
  no_space tok = true -> ends_token rest = true ->
  split_aux (tok ++ rest) (Some cur) = (cur ++ tok)%string :: split_aux rest None.
Proof.
  revert cur. induction tok as [| c tok IH]; simpl; intros cur Htok Hrest.
  - assert (E : (cur ++ "")%string = cur) by (induction cur; simpl; congruence).
    rewrite E. destruct rest as [| c r]; simpl; [reflexivity |].
    simpl in Hrest. rewrite Hrest. reflexivity.
  - apply andb_true_iff in Htok as (Hc & Htok). apply negb_true_iff in Hc.
    rewrite Hc, (IH _ Htok Hrest). f_equal.
    induction cur; simpl; [reflexivity | congruence].
Qed.

Lemma split_first_token (lead tok rest : string) :
  all_space lead = true -> tok <> "" -> no_space tok = true ->
  ends_token rest = true ->
  split (lead ++ tok ++ rest) = tok :: split rest.
Proof.
  intros Hlead Hne Htok Hrest. unfold split. rewrite (split_aux_leading _ _ Hlead).
  destruct tok as [| c tok]; [congruence |]. simpl in Htok |- *.
  apply andb_true_iff in Htok as (Hc & Htok). apply negb_true_iff in Hc. rewrite Hc.
  rewrite (split_aux_token _ _ _ Htok Hrest). reflexivity.
Qed.

Lemma append_empty (s : string) : (s ++ "")%string = s.
Proof.
  induction s; simpl; congruence.
Qed.

Lemma split_all_space (s : string) : all_space s = true -> split s = [].
Proof.
  intros H. pose proof (split_aux_leading s "" H) as P.
  rewrite append_empty in P. exact P.
Qed.

Lemma digits_value_nonneg (s : string) (acc : Z) :
  (0 <= acc)%Z -> (0 <= digits_value s acc)%Z.
Proof.
  revert acc. induction s as [| c s IH]; cbn [digits_value]; intros acc H; [exact H |].
  apply IH. pose proof (Nat2Z.is_nonneg (nat_of_ascii c - 48)). lia.
Qed.

(** X1: how the wind text is read.  A text of whitespace only (or empty)
    raises IndexError; otherwise only the first whitespace-delimited token
    counts, whatever follows it: its digits are read as one decimal
    number, and a token without a digit raises ValueError; a value that
    is returned is never negative. *)
Theorem wind_is_read_from_first_token (lead tok rest : string) :
  all_space lead = true ->
  no_space tok = true ->
  ends_token rest = true ->
  (tok = "" -> rest = "" ->
   parse_wind (VStr lead) = raise IndexError "list index out of range") /\
  (tok <> "" ->
   parse_wind (VStr (lead ++ tok ++ rest)) = parse_wind (VStr tok) /\
   parse_wind (VStr tok) = int_of_digits (filter_digits tok) /\
   (filter_digits tok = "" ->
    parse_wind (VStr tok)
    = raise ValueError "invalid literal for int() with base 10: ''") /\
   (forall n, parse_wind (VStr tok) = inr n -> (0 <= n)%Z)).
Proof.
  intros Hlead Htok Hrest. split.
  - intros _ _. unfold parse_wind. cbn [str_split bind ret].
    rewrite (split_all_space _ Hlead). reflexivity.
  - intros Hne.
    assert (Hwhole : split (lead ++ tok ++ rest) = tok :: split rest)
      by (apply split_first_token; assumption).
    assert (Halone : split tok = [ tok ]).
    { pose proof (split_first_token "" tok "" eq_refl Hne Htok eq_refl) as P.
      simpl in P. rewrite append_empty in P. exact P. }
    assert (Hparse : parse_wind (VStr tok) = int_of_digits (filter_digits tok)).
    { unfold parse_wind. cbn [str_split bind ret]. rewrite Halone. reflexivity. }
    split; [| split; [exact Hparse | split]].
    + unfold parse_wind. cbn [str_split bind ret]. rewrite Hwhole, Halone. reflexivity.
    + intros Hnone. rewrite Hparse, Hnone. reflexivity.
    + intros n Hn. rewrite Hparse in Hn. unfold int_of_digits in Hn.
      destruct (filter_digits tok); [discriminate Hn |].
      injection Hn as <-. apply digits_value_nonneg. lia.
Qed.

(** X1 on the forecast text of a wind range. *)
Lemma wind_is_read_from_first_token_witness :
  parse_wind (VStr "10 to 15 mph") = parse_wind (VStr "10") /\
  parse_wind (VStr "10") = inr 10%Z.
Proof.
  destruct (wind_is_read_from_first_token "" "10" " to 15 mph" eq_refl eq_refl eq_refl)
    as (_ & H).
  destruct (H ltac:(discriminate)) as (Hwhole & Hparse & _).
  split; [exact Hwhole | rewrite Hparse; reflexivity].
Defined.

(** ** Dict keys *)

Lemma Qeq_bool_sym (x y : Q) : Qeq_bool x y = Qeq_bool y x.
Proof.
  destruct (Qeq_bool x y) eqn:E, (Qeq_bool y x) eqn:F; try reflexivity.
  - apply Qeq_bool_iff in E. symmetry in E. apply Qeq_bool_iff in E. congruence.
  - apply Qeq_bool_iff in F. symmetry in F. apply Qeq_bool_iff in F. congruence.
Qed.

Lemma Qeq_bool_left (x y z : Q) : Qeq_bool x y = true -> Qeq_bool x z = Qeq_bool y z.
Proof.
  intros H. apply Qeq_bool_iff in H.
  destruct (Qeq_bool x z) eqn:E, (Qeq_bool y z) eqn:F; try reflexivity.
  - apply Qeq_bool_iff in E. rewrite H in E. apply Qeq_bool_iff in E. congruence.
  - apply Qeq_bool_iff in F. rewrite <- H in F. apply Qeq_bool_iff in F. congruence.
Qed.

Lemma key_eqb_sym (a b : value) : key_eqb a b = key_eqb b a.
Proof.
  destruct a, b; simpl; try reflexivity;
    try apply Qeq_bool_sym; apply String.eqb_sym.
Qed.

Lemma key_eqb_left (a b c : value) :
  key_eqb a b = true -> key_eqb a c = key_eqb b c.
Proof.
  destruct a, b; simpl; intros H; try discriminate H;
    try (apply String.eqb_eq in H; subst; reflexivity);
    destruct c; simpl; try reflexivity;
    apply Qeq_bool_left; exact H.
Qed.

Lemma lookup_store {V} (t : list (value * V)) (k k' : value) (v : V) :
  lookup (store t k v) k' = if key_eqb k k' then Some v else lookup t k'.
Proof.
  induction t as [| [k0 v0] t IH]; simpl; [reflexivity |].
  destruct (key_eqb k0 k) eqn:E; simpl.
  - rewrite (key_eqb_left _ _ k' E). destruct (key_eqb k k'); reflexivity.
  - rewrite IH. destruct (key_eqb k0 k') eqn:G; [| reflexivity].
    rewrite (key_eqb_sym k k'), <- (key_eqb_left _ _ k G), E. reflexivity.
Qed.

Lemma lookup_key_eqb {V} (t : list (value * V)) (a b : value) :
  key_eqb a b = true -> lookup t a = lookup t b.
Proof.
  intros H. induction t as [| [k v] t IH]; simpl; [reflexivity |].
  rewrite (key_eqb_sym k a), (key_eqb_sym k b), (key_eqb_left _ _ k H), IH.
  reflexivity.
Qed.

Lemma distinct_keys_store (t : tally) (k : value) (v : Z) :
  distinct_keys t -> distinct_keys (store t k v).
Proof.
  induction t as [| [k0 v0] t IH]; simpl.
  - auto.
  - intros (Hk0 & Ht). destruct (key_eqb k0 k) eqn:E; simpl.
    + auto.
    + split; [| exact (IH Ht)].
      rewrite lookup_store, key_eqb_sym, E. exact Hk0.
Qed.

Lemma store_not_empty {V} (t : list (value * V)) (k : value) (v : V) :
  store t k v <> [].
Proof.
  destruct t as [| [k0 v0] t]; simpl; [| destruct (key_eqb k0 k)]; discriminate.
Qed.

(** ** Tallies as histograms *)

Lemma how_many_cons (f : value -> bool) (e : value) (items : list value) :
  how_many f (e :: items) = ((if f e then 1 else 0) + how_many f items)%Z.
Proof.
  unfold how_many. simpl. destruct (f e); simpl List.length; lia.
Qed.

Lemma how_many_nonneg (f : value -> bool) (items : list value) :
  (0 <= how_many f items)%Z.
Proof.
  unfold how_many. lia.
Qed.

(** What a run of tally steps leaves in the tally. *)
Lemma tally_steps (key_of : value -> option value) (items : list value) (t : tally) :
  let t' := fold_left (tally_step key_of) items t in
  (forall k, count_of t' k
             = (count_of t k + how_many (counted_under key_of k) items)%Z) /\
  sum_counts t' = (sum_counts t + how_many (counted key_of) items)%Z /\
  (distinct_keys t -> distinct_keys t') /\
  (t' = [] <-> t = [] /\ how_many (counted key_of) items = 0%Z).
Proof.
  revert t. induction items as [| e items IH]; intros t; cbn [fold_left].
  - cbv zeta. unfold how_many. simpl. repeat split; intros; try lia; tauto.
  - destruct (IH (tally_step key_of t e)) as (Hc & Hs & Hd & He). cbv zeta.
    rewrite !how_many_cons.
    destruct (key_of e) as [k0 |] eqn:Ke.
    + assert (Hstep : tally_step key_of t e = store t k0 (count_of t k0 + 1)%Z)
        by (unfold tally_step; rewrite Ke; reflexivity).
      assert (Hcnt : counted key_of e = true)
        by (unfold counted; rewrite Ke; reflexivity).
      assert (Hunder : forall k, counted_under key_of k e = key_eqb k0 k)
        by (intros k; unfold counted_under; rewrite Ke; reflexivity).
      rewrite Hcnt. split; [| split; [| split]].
      * intros k. rewrite how_many_cons, Hc, Hunder, Hstep.
        assert (Hk : count_of (store t k0 (count_of t k0 + 1)%Z) k
                     = (count_of t k + (if key_eqb k0 k then 1 else 0))%Z).
        { unfold count_of. rewrite lookup_store.
          destruct (key_eqb k0 k) eqn:E; cbv beta iota;
            [rewrite (lookup_key_eqb t _ _ E) |]; lia. }
        rewrite Hk. lia.
      * rewrite Hs, Hstep, sum_counts_store. lia.
      * intros H. apply Hd. rewrite Hstep. apply distinct_keys_store, H.
      * rewrite He, Hstep. pose proof (store_not_empty t k0 (count_of t k0 + 1)%Z).
        pose proof (how_many_nonneg (counted key_of) items).
        split; intros (A & B); [contradiction | lia].
    + assert (Hstep : tally_step key_of t e = t)
        by (unfold tally_step; rewrite Ke; reflexivity).
      assert (Hcnt : counted key_of e = false)
        by (unfold counted; rewrite Ke; reflexivity).
      assert (Hunder : forall k, counted_under key_of k e = false)
        by (intros k; unfold counted_under; rewrite Ke; reflexivity).
      rewrite Hstep in Hc, Hs, Hd, He. rewrite Hstep, Hcnt.
      split; [| split; [| split]].
      * intros k. rewrite how_many_cons, Hc, Hunder. lia.
      * rewrite Hs. lia.
      * exact Hd.
      * rewrite He. tauto.
Qed.

Lemma count_fuel_key (t t' : tally) (element : value) :
  count_fuel t element = inr t' -> t' = tally_step fuel_key t element.
Proof.
  unfold count_fuel, tally_step, fuel_key, count_of. intros H.
  apply bind_inr in H as (type & Htype & H).
  destruct element as [| | | | | | d]; try (simpl in Htype; raised Htype).
  simpl in Htype. destruct (field d "type") as [ty |]; [| raised Htype].
  steps. subst ty. destruct (eq_str type "way"); [| destruct (field d "tags") as [[] |]; steps; congruence].
  apply bind_inr in H as (tags & Htags & H).
  apply bind_inr in H as (natural & Hnat & H).
  apply bind_inr in H as (fuel_type & Hft & H).
  simpl in Htags. unfold ret in Htags. injection Htags as Htags.
  destruct tags as [| | | | | | td]; try (simpl in Hnat; raised Hnat).
  simpl in Hnat. unfold ret in Hnat. injection Hnat as Hnat.
  assert (Key : (if truthy fuel_type then Some fuel_type else None)
                = match field td "natural" with
                  | Some natural =>
                      if truthy natural then Some natural
                      else match field td "landuse" with
                           | Some landuse => if truthy landuse then Some landuse else None
                           | None => None
                           end
                  | None =>
                      match field td "landuse" with
                      | Some landuse => if truthy landuse then Some landuse else None
                      | None => None
                      end
                  end).
  { unfold or_else in Hft. subst natural.
    destruct (field td "natural") as [n |].
    - destruct (truthy n) eqn:Tn.
      + steps. subst. rewrite Tn. reflexivity.
      + simpl in Hft. steps. subst. destruct (field td "landuse"); reflexivity.
    - simpl in Hft. steps. subst. destruct (field td "landuse"); reflexivity. }
  assert (Step : t' = match (if truthy fuel_type then Some fuel_type else None) with
                      | Some k => store t k (match lookup t k with
                                             | Some n => n
                                             | None => 0
                                             end + 1)%Z
                      | None => t
                      end).
  { destruct (truthy fuel_type); [| steps; congruence].
    unfold increment in H. destruct (hashable fuel_type); [| raised H].
    steps. congruence. }
  rewrite Key in Step. rewrite Step.
  destruct (field d "tags") as [x |].
  - subst x. reflexivity.
  - injection Htags as <-. reflexivity.
Qed.

Lemma for_each_count_fuel_fold (items : list value) (t t' : tally) :
  for_each count_fuel items t = inr t' ->
  t' = fold_left (tally_step fuel_key) items t.
Proof.
  revert t. induction items as [| e items IH]; simpl; intros t H.
  - steps. congruence.
  - apply bind_inr in H as (t1 & Hstep & H).
    apply count_fuel_key in Hstep. subst t1. exact (IH _ H).
Qed.

(** X2: the fuel tally is the histogram of the response: the count of a
    tag is the number of ways counted under it ('natural' before
    'landuse', empty tags skipped); the counts sum to the number of ways
    that have such a tag; no tag is listed twice; the tally is empty
    exactly when no way has one, and then [dominant_fuel] is 'Unknown'. *)
Theorem fuel_tally_is_a_histogram (data : value) (t : tally) (items : list value) :
  fuel_tally data = inr t ->
  elements_of data = inr items ->
  (forall k, count_of t k = how_many (counted_under fuel_key k) items) /\
  sum_counts t = how_many (counted fuel_key) items /\
  distinct_keys t /\
  (t = [] <-> how_many (counted fuel_key) items = 0%Z) /\
  (how_many (counted fuel_key) items = 0%Z -> dominant_fuel t = VStr "Unknown").
Proof.
  unfold fuel_tally, elements_of. intros Ht Hitems.
  apply bind_inr in Ht as (elements & Hget & Ht).
  apply bind_inr in Ht as (items' & Hiter & Ht).
  rewrite Hget in Hitems. simpl in Hitems. rewrite Hiter in Hitems.
  injection Hitems as ->.
  apply for_each_count_fuel_fold in Ht.
  destruct (tally_steps fuel_key items []) as (Hc & Hs & Hd & He).
  rewrite <- Ht in Hc, Hs, Hd, He.
  split; [intros k; rewrite Hc; reflexivity |].
  split; [rewrite Hs; reflexivity |].
  split; [apply Hd; exact I |].
  assert (Hempty : t = [] <-> how_many (counted fuel_key) items = 0%Z)
    by (rewrite He; tauto).
  split; [exact Hempty |].
  intros H0. apply Hempty in H0. rewrite H0. reflexivity.
Qed.

(** X2 on a response with ways tagged wood, grass and wood. *)
Lemma fuel_tally_is_a_histogram_witness :
  exists t,
    fuel_tally example_elements = inr t /\
    count_of t (VStr "wood") = 2%Z /\ count_of t (VStr "grass") = 1%Z /\
    count_of t (VStr "tree") = 0%Z /\ sum_counts t = 3%Z.
Proof.
  eexists. split; [reflexivity |].
  destruct (fuel_tally_is_a_histogram example_elements _ _ eq_refl eq_refl)
    as (Hc & Hs & _).
  rewrite !Hc, Hs. repeat split.
Defined.

Lemma water_type_first_truthy (td : dict) (water_type : value) :
  (natural <- get (VDict td) "natural" VNone ;;
   or_else natural
     (waterway <- get (VDict td) "waterway" VNone ;;
      or_else waterway (get (VDict td) "landuse" VNone))) = inr water_type ->
  (if truthy water_type then Some water_type else None)
  = first_truthy td [ "natural"; "waterway"; "landuse" ].
Proof.
  cbn [get bind ret first_truthy]. unfold or_else.
  destruct (field td "natural") as [n |].
  - destruct (truthy n) eqn:Tn.
    + intros [= <-]. rewrite Tn. reflexivity.
    + cbn [bind ret]. destruct (field td "waterway") as [ww |].
      * destruct (truthy ww) eqn:Tw.
        -- intros [= <-]. rewrite Tw. reflexivity.
        -- intros [= <-]. destruct (field td "landuse") as [lu |]; reflexivity.
      * cbn [truthy]. intros [= <-]. destruct (field td "landuse") as [lu |]; reflexivity.
  - cbn [truthy bind ret]. destruct (field td "waterway") as [ww |].
    + destruct (truthy ww) eqn:Tw.
      * intros [= <-]. rewrite Tw. reflexivity.
      * intros [= <-]. destruct (field td "landuse") as [lu |]; reflexivity.
    + cbn [truthy]. intros [= <-]. destruct (field td "landuse") as [lu |]; reflexivity.
Qed.

Lemma count_water_key (t t' : tally) (h h' : Z) (element : value) :
  count_water (t, h) element = inr (t', h') ->
  t' = tally_step water_key t element /\
  h' = (h + (if is_hydrant element then 1 else 0))%Z.
Proof.
  unfold count_water. intros H.
  apply bind_inr in H as (tags & Htags & H).
  apply bind_inr in H as (emergency & Hem & H).
  destruct element as [| | | | | | d]; try (simpl in Htags; raised Htags).
  simpl in Htags. unfold ret in Htags. injection Htags as Htags.
  destruct tags as [| | | | | | td]; try (simpl in Hem; raised Hem).
  simpl in Hem. unfold ret in Hem. injection Hem as Hem.
  assert (Hyd : is_hydrant (VDict d) = eq_str emergency "fire_hydrant").
  { unfold is_hydrant. destruct (field d "tags") as [x |].
    - subst x. destruct (field td "emergency"); subst; reflexivity.
    - injection Htags as <-. simpl in Hem. subst. reflexivity. }
  assert (Hkey : is_hydrant (VDict d) = false ->
                 water_key (VDict d) = first_truthy td [ "natural"; "waterway"; "landuse" ]).
  { intros Hno. unfold water_key. rewrite Hno.
    destruct (field d "tags") as [x |].
    - subst x. reflexivity.
    - injection Htags as <-. reflexivity. }
  unfold tally_step. rewrite Hyd in *.
  destruct (eq_str emergency "fire_hydrant").
  - unfold water_key. rewrite Hyd. steps. split; congruence.
  - rewrite (Hkey eq_refl).
    apply bind_inr in H as (natural & Hnat & H).
    apply bind_inr in H as (water_type & Hwt & H).
    assert (Hchain :
              (natural <- get (VDict td) "natural" VNone ;;
               or_else natural
                 (waterway <- get (VDict td) "waterway" VNone ;;
                  or_else waterway (get (VDict td) "landuse" VNone))) = inr water_type)
      by (rewrite Hnat; exact Hwt).
    rewrite <- (water_type_first_truthy _ _ Hchain).
    destruct (truthy water_type).
    + apply bind_inr in H as (t1 & Hinc & H). unfold increment in Hinc.
      destruct (hashable water_type); [| raised Hinc].
      steps. unfold count_of. split; [congruence | lia].
    + steps. split; [congruence | lia].
Qed.

Lemma for_each_count_water (items : list value) (t t' : tally) (h h' : Z) :
  for_each count_water items (t, h) = inr (t', h') ->
  t' = fold_left (tally_step water_key) items t /\
  h' = (h + how_many is_hydrant items)%Z.
Proof.
  revert t h. induction items as [| e items IH]; simpl; intros t h H.
  - steps. unfold how_many. simpl. split; [congruence | lia].
  - apply bind_inr in H as ([t1 h1] & Hstep & H).
    apply count_water_key in Hstep as (-> & ->).
    destruct (IH _ _ H) as (-> & ->). rewrite how_many_cons.
    split; [reflexivity | lia].
Qed.

Lemma how_many_disjoint (f g : value -> bool) (items : list value) :
  (forall e, f e = true -> g e = false) ->
  (how_many f items + how_many g items <= Z.of_nat (List.length items))%Z.
Proof.
  intros H. induction items as [| e items IH].
  - unfold how_many. simpl. lia.
  - rewrite !how_many_cons. simpl List.length. specialize (H e).
    destruct (f e), (g e); first [lia | discriminate (H eq_refl)].
Qed.

(** X3: a report of the water lookup counts every element of the response
    at most once: [fire_hydrants] is the number of elements tagged
    emergency=fire_hydrant, whatever else they are tagged; [water_bodies]
    is the histogram of the other elements by the first truthy one of
    their 'natural', 'waterway' and 'landuse' tags, no tag listed twice;
    [total_water_sources] is the number of all elements, so hydrants and
    water bodies together never exceed it. *)
Theorem water_report_counts_each_element_once
    (data rep : value) (items : list value) :
  water_report data = inr rep ->
  elements_of data = inr items ->
  exists (water_types : tally) (hydrants : Z),
    rep = VDict
            [ (VStr "source", VStr "OpenStreetMap via Overpass API");
              (VStr "water_bodies", tally_dict water_types);
              (VStr "fire_hydrants", VInt hydrants);
              (VStr "total_water_sources", VInt (Z.of_nat (List.length items))) ] /\
    hydrants = how_many is_hydrant items /\
    (forall k, count_of water_types k = how_many (counted_under water_key k) items) /\
    sum_counts water_types = how_many (counted water_key) items /\
    distinct_keys water_types /\
    (hydrants + sum_counts water_types <= Z.of_nat (List.length items))%Z.
Proof.
  unfold water_report, elements_of. intros H Hitems.
  apply bind_inr in H as (elements & Hget & H).
  apply bind_inr in H as (items' & Hiter & H).
  apply bind_inr in H as ([t h] & Hloop & H).
  rewrite Hget in Hitems, H. cbn [bind] in Hitems, H. rewrite Hiter in Hitems, H.
  cbn [bind] in H. injection Hitems as ->. steps. subst rep.
  apply for_each_count_water in Hloop as (-> & ->).
  destruct (tally_steps water_key items []) as (Hc & Hs & Hd & _).
  exists (fold_left (tally_step water_key) items []), (0 + how_many is_hydrant items)%Z.
  split; [reflexivity |]. split; [lia |].
  split; [intros k; rewrite Hc; reflexivity |].
  split; [rewrite Hs; reflexivity |].
  split; [apply Hd; exact I |].
  rewrite Hs. simpl sum_counts.
  pose proof (how_many_disjoint is_hydrant (counted water_key) items) as D.
  assert (Hdis : forall e, is_hydrant e = true -> counted water_key e = false).
  { intros e He. unfold counted, water_key. rewrite He. reflexivity. }
  specialize (D Hdis). lia.
Qed.

(** X3 on a response with a lake, a stream, a hydrant and a bare node. *)
Lemma water_report_counts_each_element_once_witness :
  exists water_types,
    water_report example_water
    = inr (VDict
             [ (VStr "source", VStr "OpenStreetMap via Overpass API");
               (VStr "water_bodies", tally_dict water_types);
               (VStr "fire_hydrants", VInt 1);
               (VStr "total_water_sources", VInt 4) ]) /\
    sum_counts water_types = 2%Z.
Proof.
  destruct (water_report example_water) as [e | rep] eqn:Hrun;
    [vm_compute in Hrun; discriminate Hrun |].
  destruct (water_report_counts_each_element_once example_water rep _ Hrun eq_refl)
    as (water_types & hydrants & Hrep & Hh & _ & Hs & _).
  exists water_types. split; [rewrite Hrep, Hh | rewrite Hs]; reflexivity.
Defined.

(** ** Elements without a type *)

Lemma for_each_count_fuel_typed (items : list value) :
  forall t t' : tally,
    for_each count_fuel items t = inr t' ->
    Forall (fun element => exists type, getitem element "type" = inr type) items.
Proof.
  induction items as [| element items IH]; cbn [for_each]; intros t t' H;
    [constructor |].
  apply bind_inr in H as (t1 & Hstep & H).
  constructor; [| exact (IH _ _ H)].
  unfold count_fuel in Hstep. apply bind_inr in Hstep as (type & Htype & _). eauto.
Qed.

Lemma fuel_report_typed (data rep : value) (items : list value) :
  elements_of data = inr items ->
  fuel_report data = inr rep ->
  Forall (fun element => exists type, getitem element "type" = inr type) items.
Proof.
  unfold elements_of. intros Hitems Hrun.
  unfold fuel_report in Hrun. apply bind_inr in Hrun as (t & Ht & _).
  unfold fuel_tally in Ht.
  apply bind_inr in Ht as (elements & Hget & Ht).
  apply bind_inr in Ht as (items' & Hiter & Ht).
  rewrite Hget in Hitems. cbn [bind] in Hitems. rewrite Hiter in Hitems.
  injection Hitems as ->.
  exact (for_each_count_fuel_typed _ _ _ Ht).
Qed.

(** The loop of the water lookup reads the tags of an element and nothing
    else. *)
Lemma count_water_same_tags (s : tally * Z) (element element' : value) :
  same_tags element element' -> count_water s element = count_water s element'.
Proof.
  intros (d & d' & -> & -> & H). destruct s as [t h].
  unfold count_water. cbn [get]. rewrite H. reflexivity.
Qed.

Lemma for_each_count_water_same_tags (items items' : list value) :
  Forall2 same_tags items items' ->
  forall s, for_each count_water items s = for_each count_water items' s.
Proof.
  induction 1 as [| e e' items items' He _ IH]; intros s; cbn [for_each];
    [reflexivity |].
  rewrite (count_water_same_tags s e e' He).
  destruct (count_water s e') as [err | s1]; [reflexivity |]. cbn [bind]. apply IH.
Qed.

(** The water report in terms of the elements of the response. *)
Lemma water_report_of_items (data : value) (items : list value) :
  elements_of data = inr items ->
  water_report data
  = (s <- for_each count_water items ([], 0%Z) ;;
     ret (VDict
            [ (VStr "source", VStr "OpenStreetMap via Overpass API");
              (VStr "water_bodies", tally_dict (fst s));
              (VStr "fire_hydrants", VInt (snd s));
              (VStr "total_water_sources", VInt (Z.of_nat (List.length items))) ])).
Proof.
  unfold elements_of, water_report. intros H.
  apply bind_inr in H as (elements & Hget & Hiter).
  rewrite Hget. cbn [bind]. rewrite Hiter. cbn [bind].
  destruct (for_each count_water items ([], 0%Z)) as [e | s]; [reflexivity |].
  reflexivity.
Qed.

(** X16: of the two reports built from Overpass elements only the
    vegetation report reads an element's 'type'.  It needs one it can read
    on every element: a single element without it, wherever it stands and
    whatever the other elements are, makes the report fail, so the lookup
    answers with its error record and no tally.  The water report is
    decided by the elements' tags alone: two responses whose elements
    are, one by one, mappings with the same 'tags' give the same water
    report, or fail alike, whatever 'type' and other keys the elements
    have or lack. *)
Theorem only_the_fuel_report_reads_types (data : value) (items : list value) :
  elements_of data = inr items ->
  (Exists untyped items -> exists e, fuel_report data = inl e) /\
  (forall (data' : value) (items' : list value),
     elements_of data' = inr items' ->
     Forall2 same_tags items items' ->
     water_report data' = water_report data).
Proof.
  intros Hitems. split.
  - intros Hex. destruct (fuel_report data) as [e | rep] eqn:Hrun; [eauto |]. exfalso.
    pose proof (fuel_report_typed _ _ _ Hitems Hrun) as Htyped.
    apply Exists_exists in Hex as (element & Hin & (e & He)).
    rewrite Forall_forall in Htyped. destruct (Htyped _ Hin) as (type & Htype).
    congruence.
  - intros data' items' Hitems' Hsame.
    rewrite (water_report_of_items _ _ Hitems), (water_report_of_items _ _ Hitems').
    rewrite (for_each_count_water_same_tags _ _ Hsame).
    rewrite (Forall2_length Hsame). reflexivity.
Qed.

(** X16 on a response with a lake as a way and a lake without 'type': the
    vegetation report fails, and the water report is that of the response
    in which the first lake has a number as 'type' and the second is a
    way. *)
Lemma only_the_fuel_report_reads_types_witness :
  (exists e, fuel_report (response_of [ lake 0; lake 1 ]) = inl e) /\
  water_report (response_of [ lake 2; lake 0 ])
  = water_report (response_of [ lake 0; lake 1 ]).
Proof.
  destruct (only_the_fuel_report_reads_types (response_of [ lake 0; lake 1 ]) _ eq_refl)
    as (Hfuel & Hwater).
  split.
  - apply Hfuel. right. left. eexists. reflexivity.
  - apply (Hwater (response_of [ lake 2; lake 0 ]) [ lake 2; lake 0 ] eq_refl).
    repeat constructor; do 2 eexists; repeat split.
Defined.

(** ** Hourly backfill *)

Lemma is_None_true (v : value) : is_None v = true -> v = VNone.
Proof.
  destruct v; simpl; intros H; try discriminate H; reflexivity.
Qed.

Lemma scan_hourly_first_offered (hourlies : list value) :
  Forall (fun h => isinstance_dict h = true) hourlies ->
  scan_hourly hourlies VNone
  = inr (match first_offered hourlies with Some x => x | None => VNone end).
Proof.
  induction 1 as [| hourly rest Hd _ IH]; [reflexivity |].
  destruct hourly as [| | | | | | d]; try discriminate Hd.
  cbn [scan_hourly get bind ret first_offered offered].
  destruct (field d "relativeHumidity") as [rh |]; cbn [truthy].
  - destruct (truthy rh); [| exact IH].
    destruct (is_None (unwrap_humidity rh)) eqn:E; cbn [negb].
    + rewrite (is_None_true _ E). exact IH.
    + reflexivity.
  - exact IH.
Qed.

Lemma backfill_window (i : nat) (hourlies : list value) :
  Forall (fun h => isinstance_dict h = true) (window i hourlies) ->
  backfill_humidity i (VList hourlies) VNone
  = inr (match first_offered (window i hourlies) with Some x => x | None => VNone end).
Proof.
  intros Hd. unfold backfill_humidity, window in *. cbn [is_None andb truthy].
  destruct hourlies as [| h0 rest].
  - rewrite skipn_nil. reflexivity.
  - cbn [slice bind ret iter].
    replace (i * 4 + 4 - i * 4)%nat with 4%nat by lia.
    apply scan_hourly_first_offered. exact Hd.
Qed.

(** X4: a period without a humidity of its own takes it from the hourly
    entries at positions [4 i] to [4 i + 3] and from no other: its
    'humidity' is the first value that these entries offer, and 'N/A' when
    they offer none, as when the hourly feed has at most [4 i] entries. *)
Theorem humidity_comes_from_the_hourly_window
    (i : nat) (p entry : value) (hourlies normalized_periods : list value) :
  own_humidity p = inr VNone ->
  Forall (fun h => isinstance_dict h = true) (window i hourlies) ->
  normalize_period i p (VList hourlies) normalized_periods = inr entry ->
  entry_field "humidity" entry
  = Some (match first_offered (window i hourlies) with
          | Some x => x
          | None => VStr "N/A"
          end) /\
  ((List.length hourlies <= i * 4)%nat ->
   entry_field "humidity" entry = Some (VStr "N/A")).
Proof.
  intros Hown Hd H. unfold normalize_period in H.
  apply bind_inr in H as (original_name & _ & H).
  apply bind_inr in H as (name & _ & H).
  rewrite Hown in H. cbn [bind] in H.
  rewrite (backfill_window _ _ Hd) in H. cbn [bind] in H.
  steps. subst entry. cbn [entry_field field lookup key_eqb String.eqb Ascii.eqb Bool.eqb].
  assert (Hhum : (if negb (is_None (match first_offered (window i hourlies) with
                                    | Some x => x
                                    | None => VNone
                                    end))
                  then match first_offered (window i hourlies) with
                       | Some x => x
                       | None => VNone
                       end
                  else VStr "N/A")
                 = match first_offered (window i hourlies) with
                   | Some x => x
                   | None => VStr "N/A"
                   end).
  { destruct (first_offered (window i hourlies)) as [x |] eqn:E; [| reflexivity].
    assert (Hx : is_None x = false).
    { clear - E. induction (window i hourlies) as [| h r IH]; [discriminate E |].
      cbn [first_offered] in E. destruct (offered h) as [y |] eqn:O; [| exact (IH E)].
      injection E as ->. destruct h; try discriminate O. cbn [offered] in O.
      destruct (field d "relativeHumidity"); [| discriminate O].
      destruct (truthy v); [| discriminate O].
      destruct (is_None (unwrap_humidity v)) eqn:N; [discriminate O |].
      injection O as <-. exact N. }
    rewrite Hx. reflexivity. }
  rewrite Hhum. split; [reflexivity |].
  intros Hshort. unfold window. rewrite skipn_all2 by exact Hshort. reflexivity.
Qed.

(** X4 on the second period of a forecast and a feed of six hours. *)
Lemma humidity_comes_from_the_hourly_window_witness :
  exists entry,
    normalize_period 1 (example_period "Tonight") (VList example_hourlies)
      [ VDict [ (VStr "name", VStr "Today") ] ] = inr entry /\
    entry_field "humidity" entry = Some (VInt 61).
Proof.
  eexists. split; [reflexivity |].
  refine (proj1 (humidity_comes_from_the_hourly_window 1 (example_period "Tonight") _
                   example_hourlies [ VDict [ (VStr "name", VStr "Today") ] ]
                   eq_refl _ eq_refl)).
  repeat constructor.
Defined.

(** ** Forecast entries *)

Lemma normalized_name_label (i : nat) (original : value) (st : list value)
    (name : string) :
  normalized_name i original st = inr name ->
  In name [ "Today"; "Tonight"; "Tomorrow"; "Tomorrow Night" ].
Proof.
  destruct i as [| [| i]]; cbn [normalized_name]; intros H.
  - apply bind_inr in H as (low & _ & H).
    destruct (contains "night" low); injection H as <-; simpl; auto.
  - apply bind_inr in H as (p0 & _ & H). apply bind_inr in H as (n0 & _ & H).
    destruct (eq_str n0 "Today"); injection H as <-; simpl; auto.
  - apply bind_inr in H as (p1 & _ & H). apply bind_inr in H as (n1 & _ & H).
    destruct (eq_str n1 "Tonight"); injection H as <-; simpl; auto.
Qed.

Lemma normalize_period_renders (i : nat) (p hourly_periods entry : value)
    (st : list value) :
  normalize_period i p hourly_periods st = inr entry -> renders p entry.
Proof.
  unfold normalize_period. intros H.
  apply bind_inr in H as (original & Ho & H).
  apply bind_inr in H as (name & Hn & H).
  apply bind_inr in H as (own & _ & H).
  apply bind_inr in H as (humidity & _ & H).
  apply bind_inr in H as (temperature & Ht & H).
  apply bind_inr in H as (unit & Hu & H).
  apply bind_inr in H as (wind & Hw & H).
  apply bind_inr in H as (direction & Hd & H).
  apply bind_inr in H as (short & Hs & H).
  apply bind_inr in H as (detailed & Hde & H).
  injection H as <-.
  exists name, original, temperature, unit, wind, direction,
    (if negb (is_None humidity) then humidity else VStr "N/A"), short, detailed.
  repeat (split; [first [reflexivity | assumption
                        | exact (normalized_name_label _ _ _ _ Hn)] |]).
  destruct (is_None humidity) eqn:E; [reflexivity | exact E].
Qed.

Lemma normalize_loop_renders (items : list value) :
  forall (i : nat) (hourly_periods : value) (st out : list value),
    normalize_loop i items hourly_periods st = inr out ->
    exists new, out = st ++ new /\ Forall2 renders items new.
Proof.
  induction items as [| p items IH]; cbn [normalize_loop]; intros i hp st out H.
  - injection H as <-. exists []. rewrite app_nil_r. split; constructor.
  - apply bind_inr in H as (entry & Hentry & H).
    apply normalize_period_renders in Hentry.
    destruct (IH _ _ _ _ H) as (new & -> & Hnew).
    exists (entry :: new). rewrite <- app_assoc. split; [reflexivity |].
    constructor; assumption.
Qed.

(** X5: every entry of a forecast report renders its period, the k-th
    entry the k-th of the first three periods of the response: it has the
    nine keys of an entry in their order, the period's name, temperature,
    unit, wind speed, wind direction and the two texts unchanged, a name
    among Today, Tonight, Tomorrow and Tomorrow Night, and a humidity that
    is never [None]. *)
Theorem forecast_entries_render_their_periods (forecast_data hourly_data rep : value) :
  normalize_forecast forecast_data hourly_data = inr rep ->
  exists periods out : list value,
    upstream_periods forecast_data = inr periods /\
    entry_field "forecast" rep = Some (VList out) /\
    Forall2 renders (firstn 3 periods) out.
Proof.
  unfold normalize_forecast, upstream_periods. intros H.
  apply bind_inr in H as (properties & Hprop & H).
  apply bind_inr in H as (all_periods & Hall & H).
  apply bind_inr in H as (slice3 & Hslice & H).
  apply bind_inr in H as (hp & _ & H).
  apply bind_inr in H as (hourly_periods & _ & H).
  apply bind_inr in H as (items & Hiter & H).
  apply bind_inr in H as (out & Hloop & H).
  destruct (iter_slice_3 _ _ _ Hslice Hiter) as (periods & Hperiods & ->).
  rewrite Hprop. cbn [bind]. rewrite Hall. cbn [bind].
  exists periods, out. split; [exact Hperiods |].
  injection H as <-. split; [reflexivity |].
  destruct (normalize_loop_renders _ _ _ _ _ Hloop) as (new & -> & Hnew).
  exact Hnew.
Qed.

(** X5 on a forecast of four periods. *)
Lemma forecast_entries_render_their_periods_witness :
  exists out,
    Forall2 renders
      (map example_period [ "Overnight"; "Friday"; "Friday Night" ]) out /\
    List.length out = 3%nat.
Proof.
  destruct (forecast_entries_render_their_periods
              (example_forecast [ "Overnight"; "Friday"; "Friday Night"; "Saturday" ])
              (example_forecast []) _ eq_refl)
    as (periods & out & Hperiods & _ & Hout).
  injection Hperiods as <-. exists out. split; [exact Hout |].
  apply Forall2_length in Hout. rewrite <- Hout. reflexivity.
Defined.

(** ** What a forecast report depends on *)

Lemma normalize_period_lazy (i : nat) (p hp hp' : value) (st : list value) :
  settles_humidity p ->
  normalize_period i p hp st = normalize_period i p hp' st.
Proof.
  unfold settles_humidity, normalize_period. intros Hown.
  destruct (getitem p "name") as [e | original]; [reflexivity |]. cbn [bind].
  destruct (normalized_name i original st) as [e | name]; [reflexivity |]. cbn [bind].
  destruct (own_humidity p) as [e | h]; [reflexivity |]. cbn [bind].
  assert (Hh : is_None h = false) by (destruct h; try reflexivity; congruence).
  rewrite !(backfill_keeps_own _ _ _ Hh). reflexivity.
Qed.

Lemma normalize_loop_lazy (items : list value) (hp hp' : value) :
  Forall settles_humidity items ->
  forall i st, normalize_loop i items hp st = normalize_loop i items hp' st.
Proof.
  induction 1 as [| p items Hp _ IH]; intros i st; cbn [normalize_loop]; [reflexivity |].
  rewrite (normalize_period_lazy i p hp hp' st Hp).
  destruct (normalize_period i p hp' st) as [e | entry]; [reflexivity |]. cbn [bind].
  apply IH.
Qed.

(** X6: a forecast report is decided by the first three periods of the
    forecast response and by the hourly periods; later periods are never
    read, and when each of the first three periods settles its humidity
    the hourly periods are not read either (the hourly response must
    still hold them). *)
Theorem forecast_report_reads_three_periods
    (forecast_data forecast_data' hourly_data hourly_data' hp hp' : value)
    (periods periods' : list value) :
  periods_list forecast_data periods ->
  periods_list forecast_data' periods' ->
  firstn 3 periods = firstn 3 periods' ->
  hourly_periods_of hourly_data = inr hp ->
  hourly_periods_of hourly_data' = inr hp' ->
  hp = hp' \/ Forall settles_humidity (firstn 3 periods) ->
  normalize_forecast forecast_data hourly_data
  = normalize_forecast forecast_data' hourly_data'.
Proof.
  intros (props & Hprops & Hperiods) (props' & Hprops' & Hperiods') Hsame Hhp Hhp' Hor.
  unfold hourly_periods_of in Hhp, Hhp'.
  apply bind_inr in Hhp as (hprops & Hh1 & Hh2).
  apply bind_inr in Hhp' as (hprops' & Hh1' & Hh2').
  unfold normalize_forecast.
  rewrite Hprops, Hprops'. cbn [bind]. rewrite Hperiods, Hperiods'.
  cbn [bind slice ret]. rewrite Hh1, Hh1'. cbn [bind]. rewrite Hh2, Hh2'.
  cbn [bind iter ret skipn]. replace (3 - 0)%nat with 3%nat by reflexivity.
  rewrite <- Hsame.
  destruct Hor as [-> | Hsettled]; [reflexivity |].
  rewrite (normalize_loop_lazy _ hp hp' Hsettled). reflexivity.
Qed.

(** X6 on two forecasts that differ after the third period and two hourly
    feeds, one of them not even a list. *)
Lemma forecast_report_reads_three_periods_witness :
  normalize_forecast
    (feed [ humid "Today" 40; humid "Tonight" 55; humid "Friday" 35; VInt 7 ])
    (feed example_hourlies)
  = normalize_forecast
      (feed [ humid "Today" 40; humid "Tonight" 55; humid "Friday" 35 ])
      (VDict [ (VStr "properties", VDict [ (VStr "periods", VStr "no data") ]) ]).
Proof.
  apply (forecast_report_reads_three_periods _ _ _ _
           (VList example_hourlies) (VStr "no data")
           [ humid "Today" 40; humid "Tonight" 55; humid "Friday" 35; VInt 7 ]
           [ humid "Today" 40; humid "Tonight" 55; humid "Friday" 35 ]).
  - eexists. split; reflexivity.
  - eexists. split; reflexivity.
  - reflexivity.
  - reflexivity.
  - reflexivity.
  - right. repeat constructor; discriminate.
Defined.

(** ** Outbound calls *)

(** Runs a lookup through every outcome of its steps. *)
Ltac outcomes :=
  repeat (cbn [fst snd bind ret];
          match goal with
          | |- context [match ?x with inl _ => _ | inr _ => _ end] => destruct x
          | |- context [match ?x with Some _ => _ | None => _ end] => destruct x
          end).

(** Closes a goal that names the calls appended to the log. *)
Ltac calls_found :=
  eexists; split;
  [ rewrite <- ?app_assoc; cbn [app]; reflexivity
  | cbn [List.length]; repeat split; try lia; repeat constructor ].

Lemma weather_calls (w : world) (lat lon : value) (log : list request) :
  exists more,
    snd (_get_weather_data w lat lon log) = log ++ GetPoints lat lon :: more /\
    (List.length more <= 2)%nat /\ Forall is_url_request more.
Proof.
  unfold _get_weather_data, weather_lookup, io_try, io_bind, call_get, lift,
    raise_for_status, json.
  outcomes; calls_found.
Qed.

Lemma topography_calls (w : world) (lat lon : value) (log : list request) :
  exists more,
    snd (_get_topography_data w lat lon log)
    = log ++ GetElevation [ (lat, lon) ] :: more /\
    (List.length more <= 1)%nat /\ Forall is_elevation_request more.
Proof.
  unfold _get_topography_data, topography_lookup, io_try, io_bind, call_get, lift,
    raise_for_status, json.
  outcomes; calls_found.
Qed.

Lemma fuel_calls (w : world) (lat lon : value) (log : list request) :
  snd (_get_fuel_sources w lat lon log) = log ++ [ GetFuel lat lon ].
Proof.
  unfold _get_fuel_sources, fuel_lookup, io_try, io_bind, call_get, lift,
    raise_for_status, json.
  outcomes; reflexivity.
Qed.

Lemma water_calls (w : world) (lat lon : value) (log : list request) :
  snd (_get_water_sources w lat lon log) = log ++ [ GetWater lat lon ].
Proof.
  unfold _get_water_sources, water_lookup, io_try, io_bind, call_get, lift,
    raise_for_status, json.
  outcomes; reflexivity.
Qed.

(** X7: when geocoding succeeds, one request makes the outbound calls in a
    fixed order and never repeats one: the geocoding call, the grid point
    request and at most two URL requests of the weather lookup, the
    elevation request for the place and at most one more for its
    neighbours, then exactly one vegetation query and exactly one water
    query, whatever the earlier lookups returned; every lookup is given
    the coordinates of the geocoder, and the calls made before the request
    stay in the log. *)
Theorem each_lookup_is_attempted_once
    (w : world) (city : value) (location : Location) (log : list request) :
  geocode w log city = inr (Some location) ->
  let lat := VFloat (latitude location) in
  let lon := VFloat (longitude location) in
  exists (rep : value) (weather_more topography_more : list request),
    BurnAgent.analyze_location w city log
    = (inr rep,
       log ++ Geocode city :: GetPoints lat lon :: weather_more
           ++ GetElevation [ (lat, lon) ] :: topography_more
           ++ [ GetFuel lat lon; GetWater lat lon ]) /\
    (List.length weather_more <= 2)%nat /\
    Forall is_url_request weather_more /\
    (List.length topography_more <= 1)%nat /\
    Forall is_elevation_request topography_more.
Proof.
  intros Hgeo lat lon.
  destruct (io_try_section "Weather data unavailable: " (weather_lookup w lat lon)
              (log ++ [ Geocode city ])) as (weather & log1 & Hw & _).
  destruct (io_try_section "Topography data unavailable: "
              (topography_lookup w lat lon) log1) as (topography & log2 & Ht & _).
  destruct (io_try_section "Fuel source data unavailable: " (fuel_lookup w lat lon) log2)
    as (fuel & log3 & Hf & _).
  destruct (io_try_section "Water source data unavailable: " (water_lookup w lat lon) log3)
    as (water & log4 & Ha & _).
  fold (_get_weather_data w lat lon) in Hw.
  fold (_get_topography_data w lat lon) in Ht.
  fold (_get_fuel_sources w lat lon) in Hf.
  fold (_get_water_sources w lat lon) in Ha.
  destruct (weather_calls w lat lon (log ++ [ Geocode city ])) as (wm & Hwm & Hwl & Hwu).
  destruct (topography_calls w lat lon log1) as (tm & Htm & Htl & Htu).
  pose proof (fuel_calls w lat lon log2) as Hfm.
  pose proof (water_calls w lat lon log3) as Ham.
  rewrite Hw in Hwm. rewrite Ht in Htm. rewrite Hf in Hfm. rewrite Ha in Ham.
  cbn [snd] in Hwm, Htm, Hfm, Ham.
  destruct (_get_weather_data_dict w lat lon (log ++ [ Geocode city ])) as (d & Hd).
  rewrite Hw in Hd. cbn [fst] in Hd. injection Hd as ->.
  destruct (assessor_returns d) as (assessment & Hassess).
  eexists. exists wm, tm. split; [| auto].
  unfold BurnAgent.analyze_location, _geocode_city, io_bind, call_geocode, lift, io_ret.
  rewrite Hgeo. cbn [getitem field lookup key_eqb String.eqb Ascii.eqb Bool.eqb ret].
  fold lat lon. rewrite Hw, Ht, Hf, Ha, Hassess.
  f_equal. subst log4 log3 log2 log1.
  repeat (rewrite <- ?app_assoc; cbn [app]). reflexivity.
Qed.

(** X7 in the world whose grid point request times out. *)
Lemma each_lookup_is_attempted_once_witness :
  let lat := VFloat (latitude example_location) in
  let lon := VFloat (longitude example_location) in
  exists (rep : value) (weather_more topography_more : list request),
    BurnAgent.analyze_location (example_world false) (VStr "Boise") []
    = (inr rep,
       Geocode (VStr "Boise") :: GetPoints lat lon :: weather_more
         ++ GetElevation [ (lat, lon) ] :: topography_more
         ++ [ GetFuel lat lon; GetWater lat lon ]) /\
    (List.length weather_more <= 2)%nat.
Proof.
  destruct (each_lookup_is_attempted_once (example_world false) (VStr "Boise")
              example_location [] eq_refl) as (rep & wm & tm & Hrun & Hwm & _).
  exists rep, wm, tm. split; [exact Hrun | exact Hwm].
Defined.

(** X8: a lookup whose first request fails stops there: when
    [requests.get] raises [e], or the reply has an error status for which
    [raise_for_status] raises [e], the lookup returns its error record
    with [str(e)] after that single call; the weather lookup then fetches
    neither forecast, the topography lookup no neighbours. *)
Theorem lookup_stops_at_first_failure
    (w : world) (lat lon : value) (log : list request) (e : exn) :
  (fails_with (requests_get w log (GetPoints lat lon)) e ->
   _get_weather_data w lat lon log
   = (inr (error_record "Weather data unavailable: " e), log ++ [ GetPoints lat lon ])) /\
  (fails_with (requests_get w log (GetElevation [ (lat, lon) ])) e ->
   _get_topography_data w lat lon log
   = (inr (error_record "Topography data unavailable: " e),
      log ++ [ GetElevation [ (lat, lon) ] ])) /\
  (fails_with (requests_get w log (GetFuel lat lon)) e ->
   _get_fuel_sources w lat lon log
   = (inr (error_record "Fuel source data unavailable: " e),
      log ++ [ GetFuel lat lon ])) /\
  (fails_with (requests_get w log (GetWater lat lon)) e ->
   _get_water_sources w lat lon log
   = (inr (error_record "Water source data unavailable: " e),
      log ++ [ GetWater lat lon ])).
Proof.
  unfold fails_with, _get_weather_data, weather_lookup, _get_topography_data,
    topography_lookup, _get_fuel_sources, fuel_lookup, _get_water_sources,
    water_lookup, io_try, io_bind, call_get, lift, raise_for_status.
  repeat split; intros [-> | (r & -> & Hr)]; cbn [fst snd]; try rewrite Hr;
    reflexivity.
Qed.

(** X8 in the world whose grid point request times out. *)
Lemma lookup_stops_at_first_failure_witness :
  _get_weather_data (example_world false) (VInt 43) (VInt (-116)) []
  = (inr (VDict [ (VStr "error", VStr "Weather data unavailable: timed out") ]),
     [ GetPoints (VInt 43) (VInt (-116)) ]).
Proof.
  exact (proj1 (lookup_stops_at_first_failure (example_world false) (VInt 43)
                  (VInt (-116)) [] (Raise (OtherError "ConnectTimeout") "timed out"))
           (or_introl eq_refl)).
Defined.

(** X9: the topography lookup checks the HTTP status of its first reply
    only: it returns the same section, after the same calls, when the
    reply to the neighbours request has an error status as when it has a
    good one; a body that decodes is used whatever the status. *)
Theorem neighbours_status_is_not_checked
    (w : world) (lat lon : value) (log : list request) :
  _get_topography_data w lat lon log
  = _get_topography_data (neighbours_status_cleared w) lat lon log.
Proof.
  unfold _get_topography_data, topography_lookup, io_try, io_bind, call_get, lift,
    raise_for_status, json.
  cbn [requests_get neighbours_status_cleared].
  destruct (requests_get w log (GetElevation [ (lat, lon) ])) as [e | r1];
    [reflexivity |].
  destruct (status_error r1); [reflexivity |].
  destruct (body r1) as [e | data]; [reflexivity |].
  destruct (results <- getitem data "results" ;;
            first <- getindex results 0 ;; getitem first "elevation")
    as [e | elevation]; [reflexivity |].
  destruct (add_float lat _) as [e | north]; [reflexivity |].
  destruct (sub_float lat _) as [e | south]; [reflexivity |].
  destruct (add_float lon _) as [e | east]; [reflexivity |].
  destruct (sub_float lon _) as [e | west]; [reflexivity |].
  destruct (requests_get w (log ++ [ GetElevation [ (lat, lon) ] ])
              (GetElevation [ (north, lon); (south, lon); (lat, east); (lat, west) ]))
    as [e | r2]; reflexivity.
Qed.

(** With a status 500 on the neighbours reply the report is still built
    from its body. *)
Example topography_despite_status_500 :
  exists rep,
    fst (_get_topography_data example_world_500 (VFloat (latitude example_location))
           (VFloat (longitude example_location)) [])
    = inr rep /\
    entry_field "elevation_meters" rep = Some (VInt 824) /\
    entry_field "elevation_range_nearby" rep = Some (VInt 60) /\
    entry_field "terrain_note" rep = Some (VStr "Moderately hilly terrain").
Proof.
  eexists. split; [reflexivity |]. repeat split.
Qed.

(** ** Topography *)

(** A comparison that returns with a number on one side has numbers on
    both. *)
Lemma py_order_nums (gt : bool) (a b : value) (r : bool) :
  py_order gt a b = inr r ->
  num_of a <> None \/ num_of b <> None ->
  exists x y,
    num_of a = Some x /\ num_of b = Some y /\
    r = if gt then Qltb y x else Qltb x y.
Proof.
  intros H Hn.
  destruct a, b; cbn [py_order num_of] in H, Hn |- *;
    try (destruct Hn as [Hn | Hn]; congruence);
    try (raised H);
    injection H as <-; eauto.
Qed.

(** The extremum is one of the items, and every item is a number on its
    near side. *)
Lemma extremum_spans (gt : bool) (rest : list value) :
  forall (best found : value) (a : Q),
    for_each (fun best item =>
                better <- py_order gt item best ;;
                ret (if better then item else best)) rest best = inr found ->
    num_of found = Some a ->
    In found (best :: rest) /\
    Forall (fun e => exists q, num_of e = Some q /\
                               if gt then (q <= a)%Q else (a <= q)%Q) (best :: rest).
Proof.
  induction rest as [| item rest IH]; cbn [for_each]; intros best found a H Ha.
  - injection H as <-. split; [left; reflexivity |].
    constructor; [| constructor]. exists a. split; [exact Ha |].
    destruct gt; apply Qle_refl.
  - apply bind_inr in H as (best' & Hstep & H).
    apply bind_inr in Hstep as (better & Horder & Hstep). injection Hstep as <-.
    destruct (IH _ _ _ H Ha) as (Hin & Hall).
    inversion Hall as [| ? ? (c & Hc & Hca) Hrest]; subst.
    destruct (py_order_nums _ _ _ _ Horder) as (x & y & Hx & Hy & Hlt).
    { destruct better; [left | right]; congruence. }
    destruct better; symmetry in Hlt.
    + rewrite Hx in Hc. injection Hc as <-. split.
      * destruct Hin as [<- | Hin]; [right; left; reflexivity | right; right; exact Hin].
      * constructor; [| constructor; [eauto | exact Hrest]].
        exists y. split; [exact Hy |].
        destruct gt; apply Qltb_lt in Hlt; apply Qlt_le_weak in Hlt.
        -- exact (Qle_trans _ _ _ Hlt Hca).
        -- exact (Qle_trans _ _ _ Hca Hlt).
    + rewrite Hy in Hc. injection Hc as <-. split.
      * destruct Hin as [<- | Hin]; [left; reflexivity | right; right; exact Hin].
      * constructor; [eauto | constructor; [| exact Hrest]].
        exists x. split; [exact Hx |].
        destruct gt; apply Qltb_ge in Hlt.
        -- exact (Qle_trans _ _ _ Hlt Hca).
        -- exact (Qle_trans _ _ _ Hca Hlt).
Qed.

Lemma num_of_whole (v : value) (x : Q) :
  is_float v = false -> num_of v = Some x -> x = inject_Z (Qnum x).
Proof.
  destruct v; try discriminate; cbn [num_of]; intros _ [= <-];
    [destruct b |]; reflexivity.
Qed.

Lemma classify_terrain_Qeq (x y : Q) :
  (x == y)%Q -> _classify_terrain x = _classify_terrain y.
Proof.
  intros H. unfold _classify_terrain. rewrite !(Qltb_Qeq x y _ H). reflexivity.
Qed.

(** *** Rounding to a double *)

Lemma round_half_even_bounds (y : Q) :
  (Qfloor y <= round_half_even y <= Qfloor y + 1)%Z.
Proof.
  unfold round_half_even.
  destruct (y - inject_Z (Qfloor y) ?= 1 # 2)%Q; [destruct (Z.odd _) | |]; lia.
Qed.

Lemma round_half_even_Z (k : Z) : round_half_even (inject_Z k) = k.
Proof.
  unfold round_half_even. rewrite Qfloor_Z.
  assert (H : (inject_Z k - inject_Z k == 0)%Q) by ring.
  destruct (Qcompare_spec (inject_Z k - inject_Z k) (1 # 2)) as [E | E | E];
    try reflexivity; rewrite H in E; discriminate E.
Qed.

Lemma round_half_even_le (a b : Q) :
  (a <= b)%Q -> (round_half_even a <= round_half_even b)%Z.
Proof.
  intros Hab. pose proof (Qfloor_resp_le _ _ Hab) as Hf.
  pose proof (round_half_even_bounds a) as Ba.
  pose proof (round_half_even_bounds b) as Bb.
  destruct (Z.eq_dec (Qfloor a) (Qfloor b)) as [E | N]; [| lia].
  unfold round_half_even in *. rewrite <- E in *.
  destruct (Qcompare_spec (a - inject_Z (Qfloor a)) (1 # 2)) as [Ha | Ha | Ha];
    destruct (Qcompare_spec (b - inject_Z (Qfloor a)) (1 # 2)) as [Hb | Hb | Hb];
    try lia; try (destruct (Z.odd (Qfloor a)); lia); exfalso.
  - assert (b < a)%Q; [| apply (Qlt_not_le _ _ H Hab)].
    apply Qplus_lt_l with (z := (- inject_Z (Qfloor a))%Q).
    unfold Qminus in *. rewrite Ha. exact Hb.
  - assert (b < a)%Q; [| apply (Qlt_not_le _ _ H Hab)].
    apply Qplus_lt_l with (z := (- inject_Z (Qfloor a))%Q).
    unfold Qminus in *. rewrite Hb. exact Ha.
  - assert (b < a)%Q; [| apply (Qlt_not_le _ _ H Hab)].
    apply Qplus_lt_l with (z := (- inject_Z (Qfloor a))%Q).
    unfold Qminus in *. exact (Qlt_trans _ _ _ Hb Ha).
Qed.

Lemma two_nonzero : ~ (2 == 0)%Q.
Proof. discriminate. Qed.

Lemma pow2_pos (e : Z) : (0 < 2 ^ e)%Q.
Proof. apply Qpower_0_lt. reflexivity. Qed.

Lemma pow2_succ (e : Z) : (2 ^ (e + 1) == 2 * 2 ^ e)%Q.
Proof.
  rewrite Qpower_plus by exact two_nonzero. rewrite Qpower_1_r. ring.
Qed.

Lemma pow2_le (a b : Z) : (a <= b)%Z -> (2 ^ a <= 2 ^ b)%Q.
Proof.
  intros H. apply Qpower_le_compat_l; [exact H | discriminate].
Qed.

Lemma pow2_Z (k : Z) : (0 <= k)%Z -> (2 ^ k == inject_Z (2 ^ k))%Q.
Proof.
  intros H. rewrite Zpower_Qpower by exact H. reflexivity.
Qed.

(** A positive integer lies between the powers of two around it. *)
Lemma log2_bounds (n : Z) :
  (0 < n)%Z ->
  (2 ^ Z.log2 n <= inject_Z n)%Q /\ (inject_Z n < 2 * 2 ^ Z.log2 n)%Q.
Proof.
  intros H. destruct (Z.log2_spec n H) as (Hlo & Hhi).
  pose proof (Z.log2_nonneg n) as Hn.
  rewrite <- pow2_succ. rewrite !pow2_Z by lia.
  split; [rewrite <- Zle_Qle; exact Hlo | rewrite <- Zlt_Qlt].
  replace (Z.log2 n + 1)%Z with (Z.succ (Z.log2 n)) by lia. exact Hhi.
Qed.

Lemma ilog2_spec (x : Q) :
  (0 < x)%Q -> (2 ^ ilog2 x <= x)%Q /\ (x < 2 ^ (ilog2 x + 1))%Q.
Proof.
  intros Hx. unfold ilog2.
  set (lp := Z.log2 (Qnum x)). set (lq := Z.log2 (Zpos (Qden x))).
  assert (Hp : (0 < Qnum x)%Z).
  { destruct x as [p q]. unfold Qlt in Hx. simpl in *. lia. }
  destruct (log2_bounds _ Hp) as (Plo & Phi). fold lp in Plo, Phi.
  destruct (log2_bounds (Zpos (Qden x)) ltac:(lia)) as (Qlo & Qhi). fold lq in Qlo, Qhi.
  assert (Hx' : (x == inject_Z (Qnum x) / inject_Z (Zpos (Qden x)))%Q).
  { destruct x as [p q]. simpl. apply Qmake_Qdiv. }
  set (A := inject_Z (Qnum x)) in *. set (B := inject_Z (Zpos (Qden x))) in *.
  pose proof (pow2_pos (lp - lq)) as Ht. pose proof (pow2_pos lq) as Hq.
  assert (Hprod : (2 ^ (lp - lq) * 2 ^ lq == 2 ^ lp)%Q).
  { rewrite <- Qpower_plus by exact two_nonzero. replace (lp - lq + lq)%Z with lp by lia.
    reflexivity. }
  set (t := (2 ^ (lp - lq))%Q) in *. set (P := (2 ^ lp)%Q) in *. set (Q' := (2 ^ lq)%Q) in *.
  assert (HB : (0 < B)%Q) by lra.
  destruct (Qle_bool t x) eqn:E.
  - apply Qle_bool_iff in E. split; [exact E |].
    rewrite pow2_succ. fold t. rewrite Hx'. apply Qlt_shift_div_r; [exact HB |]. nra.
  - assert (Hlt : (x < t)%Q).
    { apply Qnot_le_lt. intros Hle. apply Qle_bool_iff in Hle. congruence. }
    split.
    + assert (Hhalf : (2 * 2 ^ (lp - lq - 1) == t)%Q).
      { rewrite <- pow2_succ. replace (lp - lq - 1 + 1)%Z with (lp - lq)%Z by lia.
        reflexivity. }
      rewrite Hx'. apply Qle_shift_div_l; [exact HB |].
      pose proof (pow2_pos (lp - lq - 1)). nra.
    + replace (lp - lq - 1 + 1)%Z with (lp - lq)%Z by lia. exact Hlt.
Qed.

Lemma ilog2_le (x y : Q) : (0 < x)%Q -> (x <= y)%Q -> (ilog2 x <= ilog2 y)%Z.
Proof.
  intros Hx Hxy. assert (Hy : (0 < y)%Q) by lra.
  destruct (ilog2_spec x Hx) as (Lx & _). destruct (ilog2_spec y Hy) as (_ & Uy).
  destruct (Z_lt_le_dec (ilog2 y) (ilog2 x)) as [H | H]; [exfalso | exact H].
  pose proof (pow2_le (ilog2 y + 1) (ilog2 x) ltac:(lia)). lra.
Qed.

Lemma Qabs_of_pos (x : Q) : (0 < x)%Q -> Qabs x = x.
Proof.
  destruct x as [[| p | p] q]; intros H; try reflexivity; discriminate H.
Qed.

Lemma double_zero (x : Q) : (x == 0)%Q -> double x = 0%Q.
Proof.
  intros H. unfold double. apply Qeq_bool_iff in H. rewrite H. reflexivity.
Qed.

Lemma double_value (x : Q) :
  ~ (x == 0)%Q -> (double x == inject_Z (round_half_even (x / ulp x)) * ulp x)%Q.
Proof.
  intros H. unfold double. destruct (Qeq_bool x 0) eqn:E.
  - apply Qeq_bool_iff in E. contradiction.
  - apply Qred_correct.
Qed.

Lemma ulp_pos (x : Q) : (0 < ulp x)%Q.
Proof. apply pow2_pos. Qed.

(** Scaling by the spacing and back. *)
Lemma scaled_le (x u : Q) (k : Z) :
  (0 < u)%Q -> (x <= inject_Z k * u)%Q -> (round_half_even (x / u) <= k)%Z.
Proof.
  intros Hu H. rewrite <- (round_half_even_Z k). apply round_half_even_le.
  apply Qle_shift_div_r; assumption.
Qed.

Lemma scaled_ge (x u : Q) (k : Z) :
  (0 < u)%Q -> (inject_Z k * u <= x)%Q -> (k <= round_half_even (x / u))%Z.
Proof.
  intros Hu H. rewrite <- (round_half_even_Z k) at 1. apply round_half_even_le.
  apply Qle_shift_div_l; assumption.
Qed.

Lemma double_le_pos (x y : Q) :
  (0 < x)%Q -> (x <= y)%Q -> (double x <= double y)%Q.
Proof.
  intros Hx Hxy. assert (Hy : (0 < y)%Q) by lra.
  rewrite (double_value x), (double_value y) by lra.
  unfold ulp. rewrite (Qabs_of_pos x Hx), (Qabs_of_pos y Hy).
  pose proof (ilog2_le x y Hx Hxy) as He.
  destruct (ilog2_spec x Hx) as (Lx & Ux). destruct (ilog2_spec y Hy) as (Ly & Uy).
  set (ex := ilog2 x) in *. set (ey := ilog2 y) in *.
  set (cx := Z.max (ex - 52) (-1074)). set (cy := Z.max (ey - 52) (-1074)).
  pose proof (pow2_pos cx) as Pcx. pose proof (pow2_pos cy) as Pcy.
  destruct (Z.eq_dec cx cy) as [E | N].
  - rewrite <- E in *.
    assert (H : (round_half_even (x / 2 ^ cx) <= round_half_even (y / 2 ^ cx))%Z).
    { apply round_half_even_le. apply Qle_shift_div_l; [exact Pcx |].
      setoid_replace (x / 2 ^ cx * 2 ^ cx)%Q with x by (field; lra). exact Hxy. }
    rewrite Zle_Qle in H. nra.
  - assert (Hc : (cx < cy)%Z) by lia.
    assert (Hcy : cy = (ey - 52)%Z) by lia.
    assert (Hk : (0 <= ey - cx)%Z) by lia.
    assert (Hex : (ex + 1 <= ey)%Z) by lia.
    (* the smaller number rounds to at most 2 ^ ey *)
    assert (Hsplit : (inject_Z (2 ^ (ey - cx)) * 2 ^ cx == 2 ^ ey)%Q).
    { rewrite <- pow2_Z by exact Hk. rewrite <- Qpower_plus by exact two_nonzero.
      replace (ey - cx + cx)%Z with ey by lia. reflexivity. }
    assert (Hlow : (round_half_even (x / 2 ^ cx) <= 2 ^ (ey - cx))%Z).
    { apply scaled_le; [exact Pcx |]. rewrite Hsplit.
      pose proof (pow2_le (ex + 1) ey Hex). lra. }
    (* the larger one to at least 2 ^ ey *)
    assert (Hsplit' : (inject_Z (2 ^ 52) * 2 ^ cy == 2 ^ ey)%Q).
    { rewrite <- pow2_Z by lia. rewrite <- Qpower_plus by exact two_nonzero.
      replace (52 + cy)%Z with ey by lia. reflexivity. }
    assert (Hhigh : (2 ^ 52 <= round_half_even (y / 2 ^ cy))%Z).
    { apply scaled_ge; [exact Pcy |]. rewrite Hsplit'. exact Ly. }
    rewrite Zle_Qle in Hlow, Hhigh.
    apply Qle_trans with (y := (2 ^ ey)%Q).
    + rewrite <- Hsplit. nra.
    + rewrite <- Hsplit'. nra.
Qed.

Lemma round_half_even_comp (a b : Q) :
  (a == b)%Q -> round_half_even a = round_half_even b.
Proof.
  intros H. unfold round_half_even. rewrite (Qfloor_comp _ _ H).
  assert (E : (a - inject_Z (Qfloor b) == b - inject_Z (Qfloor b))%Q) by (rewrite H; reflexivity).
  rewrite (Qcompare_comp _ _ E _ _ (Qeq_refl (1 # 2))). reflexivity.
Qed.

Lemma Qfloor_unique (x : Q) (z : Z) :
  (inject_Z z <= x)%Q -> (x < inject_Z (z + 1))%Q -> Qfloor x = z.
Proof.
  intros Hlo Hhi. pose proof (Qfloor_resp_le _ _ Hlo) as H1. rewrite Qfloor_Z in H1.
  pose proof (Qfloor_le x) as H2.
  assert (H3 : (inject_Z (Qfloor x) < inject_Z (z + 1))%Q) by lra.
  rewrite <- Zlt_Qlt in H3. lia.
Qed.

Lemma round_half_even_opp (a : Q) : round_half_even (- a) = (- round_half_even a)%Z.
Proof.
  pose proof (Qfloor_le a) as Hlo. pose proof (Qlt_floor a) as Hhi.
  set (f := Qfloor a) in *.
  destruct (Qeq_dec a (inject_Z f)) as [E | N].
  - rewrite (round_half_even_comp a (inject_Z f) E).
    assert (E' : (- a == inject_Z (- f))%Q) by (rewrite E, inject_Z_opp; reflexivity).
    rewrite (round_half_even_comp _ _ E'), !round_half_even_Z. reflexivity.
  - assert (Hf : Qfloor (- a) = (- f - 1)%Z).
    { apply Qfloor_unique.
      - rewrite inject_Z_plus in Hhi. unfold Z.sub. rewrite inject_Z_plus, !inject_Z_opp.
        simpl inject_Z in *. lra.
      - replace (- f - 1 + 1)%Z with (- f)%Z by lia. rewrite inject_Z_opp.
        assert (inject_Z f < a)%Q; [| lra].
        apply Qle_lteq in Hlo as [H | H]; [exact H | symmetry in H; contradiction]. }
    unfold round_half_even. rewrite Hf. fold f.
    assert (Hrest : (- a - inject_Z (- f - 1) == 1 - (a - inject_Z f))%Q).
    { unfold Z.sub. rewrite inject_Z_plus, !inject_Z_opp. simpl inject_Z. ring. }
    rewrite (Qcompare_comp _ _ Hrest _ _ (Qeq_refl (1 # 2))).
    assert (Hodd : Z.odd (- f - 1) = negb (Z.odd f)).
    { replace (- f - 1)%Z with (- (f + 1))%Z by lia.
      rewrite Z.odd_opp, Z.odd_add. simpl. destruct (Z.odd f); reflexivity. }
    rewrite Hodd.
    destruct (Qcompare_spec (a - inject_Z f) (1 # 2)) as [Ha | Ha | Ha];
      destruct (Qcompare_spec (1 - (a - inject_Z f)) (1 # 2)) as [Hb | Hb | Hb];
      try (exfalso; lra); try lia.
    destruct (Z.odd f); simpl; lia.
Qed.

Lemma Qabs_opp_eq (x : Q) : Qabs (- x) = Qabs x.
Proof.
  destruct x as [p q]. unfold Qabs, Qopp. simpl. rewrite Z.abs_opp. reflexivity.
Qed.

Lemma double_opp (x : Q) : (double (- x) == - double x)%Q.
Proof.
  destruct (Qeq_dec x 0) as [E | N].
  - rewrite (double_zero x E), (double_zero (- x)) by (rewrite E; reflexivity). reflexivity.
  - rewrite (double_value x N), (double_value (- x)) by lra.
    unfold ulp. rewrite Qabs_opp_eq. fold (ulp x).
    assert (H : (- x / ulp x == - (x / ulp x))%Q).
    { pose proof (ulp_pos x). field. lra. }
    rewrite (round_half_even_comp _ _ H), round_half_even_opp, inject_Z_opp. ring.
Qed.

Lemma double_nonneg (x : Q) : (0 <= x)%Q -> (0 <= double x)%Q.
Proof.
  intros H. destruct (Qeq_dec x 0) as [E | N]; [rewrite (double_zero x E); lra |].
  rewrite (double_value x N). pose proof (ulp_pos x) as Hu.
  assert (Hr : (0 <= round_half_even (x / ulp x))%Z).
  { apply scaled_ge; [exact Hu |]. change (inject_Z 0) with 0%Q. lra. }
  rewrite Zle_Qle in Hr. change (inject_Z 0) with 0%Q in Hr. nra.
Qed.

(** Rounding to the nearest double keeps the order. *)
Lemma double_le (x y : Q) : (x <= y)%Q -> (double x <= double y)%Q.
Proof.
  intros H.
  destruct (Qlt_le_dec 0 x) as [Hx | Hx]; [apply double_le_pos; assumption |].
  destruct (Qlt_le_dec y 0) as [Hy | Hy].
  - assert (Hm : (double (- y) <= double (- x))%Q) by (apply double_le_pos; lra).
    rewrite !double_opp in Hm. lra.
  - pose proof (double_nonneg y Hy) as Py.
    assert (Px : (0 <= double (- x))%Q) by (apply double_nonneg; lra).
    rewrite double_opp in Px. lra.
Qed.

Lemma float_of_value (v : value) (x x' : Q) : float_of v x = inr x' -> x' = double x.
Proof.
  unfold float_of. destruct (is_float v); [| destruct (too_large x)]; intros H;
    try (raised H); injection H as <-; reflexivity.
Qed.

(** The difference of the highest and the lowest, as [py_sub] computes
    it, is not negative. *)
Lemma py_sub_difference (a b range : value) (x y : Q) :
  num_of a = Some x -> num_of b = Some y -> (y <= x)%Q ->
  py_sub a b = inr range ->
  exists r,
    num_of range = Some r /\ (r == difference a b x y)%Q /\
    (0 <= difference a b x y)%Q.
Proof.
  intros Ha Hb Hle H. unfold py_sub in H. rewrite Ha, Hb in H. unfold difference.
  destruct (is_float a || is_float b) eqn:F.
  - apply bind_inr in H as (x' & Hx & H). apply bind_inr in H as (y' & Hy & H).
    apply float_of_value in Hx, Hy. subst x' y'. injection H as <-.
    eexists. split; [reflexivity |]. split; [apply Qeq_refl |].
    apply double_nonneg. pose proof (double_le _ _ Hle). lra.
  - injection H as <-. apply orb_false_iff in F as (Fa & Fb).
    exists (inject_Z (Qnum x - Qnum y)). split; [reflexivity |].
    assert (E : (inject_Z (Qnum x - Qnum y) == x - y)%Q).
    { rewrite (num_of_whole _ _ Fa Ha) at 2. rewrite (num_of_whole _ _ Fb Hb) at 2.
      unfold Qminus, Qeq, Qplus, Qopp, inject_Z. simpl. lia. }
    split; [exact E | lra].
Qed.

(** X10: in a report of the topography lookup the elevation of the place is
    passed on unchanged and plays no part in [terrain_note], which
    classifies the span of the neighbours' elevations: every one of them is
    a number between the lowest and the highest, both among them, and the
    note is the class of their difference as Python takes it (exact
    between ints, rounded to the nearest double when a float takes part),
    which is never negative. *)
Theorem terrain_note_classifies_the_neighbours_span
    (elevation nearby_data rep : value) :
  topography_report elevation nearby_data = inr rep ->
  exists (elevations : list value) (highest lowest : value) (hi lo : Q),
    neighbour_elevations nearby_data = inr elevations /\
    In highest elevations /\ num_of highest = Some hi /\
    In lowest elevations /\ num_of lowest = Some lo /\
    Forall (within lo hi) elevations /\
    (0 <= difference highest lowest hi lo)%Q /\
    entry_field "elevation_meters" rep = Some elevation /\
    entry_field "terrain_note" rep
    = Some (VStr (_classify_terrain (difference highest lowest hi lo))).
Proof.
  unfold topography_report. intros H.
  apply bind_inr in H as (results & Hres & H).
  apply bind_inr in H as (items & Hiter & H).
  apply bind_inr in H as (elevations & Hall & H).
  apply bind_inr in H as (highest & Hhi & H).
  apply bind_inr in H as (lowest & Hlo & H).
  apply bind_inr in H as (range & Hsub & H).
  apply bind_inr in H as (feet & _ & H).
  apply bind_inr in H as (shown & _ & H).
  injection H as <-.
  assert (Hnum : exists a b, num_of highest = Some a /\ num_of lowest = Some b).
  { unfold py_sub in Hsub.
    destruct (num_of highest) as [a |]; [| raised Hsub].
    destruct (num_of lowest) as [b |]; [| raised Hsub]. eauto. }
  destruct Hnum as (a & b & Ha & Hb).
  destruct elevations as [| first rest]; [raised Hhi |].
  cbn [py_extremum] in Hhi, Hlo.
  destruct (extremum_spans true _ _ _ _ Hhi Ha) as (Hin_hi & Hbelow).
  destruct (extremum_spans false _ _ _ _ Hlo Hb) as (Hin_lo & Habove).
  assert (Hba : (b <= a)%Q).
  { rewrite Forall_forall in Hbelow. destruct (Hbelow _ Hin_lo) as (q & Hq & Hle).
    rewrite Hb in Hq. injection Hq as <-. exact Hle. }
  destruct (py_sub_difference _ _ _ _ _ Ha Hb Hba Hsub) as (r & Hr & Hrd & Hpos).
  exists (first :: rest), highest, lowest, a, b.
  split; [unfold neighbour_elevations; rewrite Hres; cbn [bind]; rewrite Hiter; exact Hall |].
  do 4 (split; [assumption |]).
  split.
  { rewrite Forall_forall in Hbelow, Habove |- *. intros e He.
    destruct (Hbelow _ He) as (q & Hq & Hle). destruct (Habove _ He) as (q' & Hq' & Hge).
    rewrite Hq in Hq'. injection Hq' as <-. exists q. auto. }
  split; [exact Hpos |].
  split; [reflexivity |].
  cbn [entry_field field lookup key_eqb String.eqb Ascii.eqb Bool.eqb].
  rewrite Hr, (classify_terrain_Qeq _ _ Hrd). reflexivity.
Qed.

(** X10 on a place at 824 m whose neighbours lie at 0.1 m and 10.1 m:
    the difference of the two doubles rounds to 10.0, and the terrain is
    gently rolling, not flat. *)
Lemma terrain_note_classifies_the_neighbours_span_witness :
  exists (rep : value) (d : Q),
    topography_report (VInt 824) example_neighbours = inr rep /\
    (0 <= d)%Q /\
    entry_field "terrain_note" rep = Some (VStr (_classify_terrain d)) /\
    entry_field "terrain_note" rep = Some (VStr "Gently rolling terrain").
Proof.
  destruct (topography_report (VInt 824) example_neighbours) as [e | rep] eqn:Hrun;
    [vm_compute in Hrun; discriminate Hrun |].
  destruct (terrain_note_classifies_the_neighbours_span _ _ _ Hrun)
    as (elevations & highest & lowest & hi & lo & _ & _ & _ & _ & _ & _ & Hpos & _ & Hnote).
  exists rep, (difference highest lowest hi lo).
  split; [reflexivity |]. split; [exact Hpos |]. split; [exact Hnote |].
  vm_compute in Hrun. injection Hrun as <-. reflexivity.
Defined.

(** ** Weather and assessment together *)

Lemma normalize_forecast_shape (forecast_data hourly_data v : value) :
  normalize_forecast forecast_data hourly_data = inr v ->
  exists out,
    v = VDict [ (VStr "source", VStr "National Weather Service (NOAA)");
                (VStr "forecast", VList out) ].
Proof.
  unfold normalize_forecast. intros H. steps. subst v. eauto.
Qed.

Lemma compute_concerns_shape (weather_data v : value) :
  compute_concerns weather_data = inr v ->
  exists concerns,
    v = VDict [ (VStr "concerns", VList concerns);
                (VStr "recommendation", VStr recommendation) ].
Proof.
  unfold compute_concerns. intros H.
  apply bind_inr in H as (forecast & _ & H).
  apply bind_inr in H as (current & _ & H).
  apply bind_inr in H as (temp & _ & H).
  apply bind_inr in H as (humidity & _ & H).
  apply bind_inr in H as (wind & _ & H).
  apply bind_inr in H as (wind_value & _ & H).
  apply bind_inr in H as (dry & _ & H).
  apply bind_inr in H as (hot & _ & H).
  injection H as <-. eauto.
Qed.

(** X11: the burn assessment of a report is the record 'Unable to assess -
    weather data unavailable' exactly when the weather lookup failed; a
    weather section that was built is always assessed from its forecast,
    and when that forecast has no period the assessment is the degraded
    record with the message 'list index out of range'. *)
Theorem assessment_is_unavailable_exactly_when_weather_failed
    (w : world) (lat lon : value) (log : list request) :
  exists section assessed : value,
    fst (_get_weather_data w lat lon log) = inr section /\
    _assess_burn_conditions section = inr assessed /\
    (assessed = assessment "Unable to assess - weather data unavailable" <->
     exists e, fst (weather_lookup w lat lon log) = inl e) /\
    (entry_field "forecast" section = Some (VList []) ->
     assessed = assessment "Unable to assess conditions: list index out of range").
Proof.
  unfold _get_weather_data, io_try.
  destruct (weather_lookup w lat lon log) as [[e | v] log'] eqn:Hrun; cbn [fst].
  - exists (error_record "Weather data unavailable: " e),
      (assessment "Unable to assess - weather data unavailable").
    split; [reflexivity |]. split; [reflexivity |]. split.
    + split; eauto.
    + discriminate.
  - destruct (weather_section_is_normalized _ _ _ _ _ _ Hrun) as (fd & hd & Hnorm).
    destruct (normalize_forecast_shape _ _ _ Hnorm) as (out & ->).
    eexists. eexists. split; [reflexivity |].
    split; [unfold _assess_burn_conditions; cbn [py_in field lookup key_eqb bind ret];
            reflexivity |].
    split.
    + split; [| intros (e & He); discriminate He].
      intros Ha. exfalso. unfold try_except in Ha.
      destruct (compute_concerns _) as [e | r] eqn:Hc.
      * unfold assessment in Ha. cbn [append] in Ha. discriminate Ha.
      * destruct (compute_concerns_shape _ _ Hc) as (concerns & ->). discriminate Ha.
    + cbn [entry_field field lookup key_eqb String.eqb Ascii.eqb Bool.eqb].
      intros [= ->]. reflexivity.
Qed.

(** ** The view *)

Lemma analyze_location_reports
    (w : world) (city : value) (location : Location) (log : list request) :
  geocode w log city = inr (Some location) ->
  exists (l we t f wa a : value) (calls : list request),
    BurnAgent.analyze_location w city log
    = (inr (report l we t f wa a), log ++ Geocode city :: calls).
Proof.
  intros Hgeo.
  set (lat := VFloat (latitude location)). set (lon := VFloat (longitude location)).
  destruct (io_try_section "Weather data unavailable: " (weather_lookup w lat lon)
              (log ++ [ Geocode city ])) as (weather & log1 & Hw & _).
  destruct (io_try_section "Topography data unavailable: "
              (topography_lookup w lat lon) log1) as (topography & log2 & Ht & _).
  destruct (io_try_section "Fuel source data unavailable: " (fuel_lookup w lat lon) log2)
    as (fuel & log3 & Hf & _).
  destruct (io_try_section "Water source data unavailable: " (water_lookup w lat lon) log3)
    as (water & log4 & Ha & _).
  fold (_get_weather_data w lat lon) in Hw.
  fold (_get_topography_data w lat lon) in Ht.
  fold (_get_fuel_sources w lat lon) in Hf.
  fold (_get_water_sources w lat lon) in Ha.
  destruct (weather_calls w lat lon (log ++ [ Geocode city ])) as (wm & Hwm & _).
  destruct (topography_calls w lat lon log1) as (tm & Htm & _).
  pose proof (fuel_calls w lat lon log2) as Hfm.
  pose proof (water_calls w lat lon log3) as Ham.
  rewrite Hw in Hwm. rewrite Ht in Htm. rewrite Hf in Hfm. rewrite Ha in Ham.
  cbn [snd] in Hwm, Htm, Hfm, Ham.
  destruct (_get_weather_data_dict w lat lon (log ++ [ Geocode city ])) as (d & Hd).
  rewrite Hw in Hd. cbn [fst] in Hd. injection Hd as ->.
  destruct (assessor_returns d) as (assessed & Hassess).
  do 6 eexists.
  exists (GetPoints lat lon :: wm ++ GetElevation [ (lat, lon) ] :: tm
            ++ [ GetFuel lat lon; GetWater lat lon ]).
  unfold BurnAgent.analyze_location, _geocode_city, io_bind, call_geocode, lift, io_ret.
  rewrite Hgeo. cbn [getitem field lookup key_eqb String.eqb Ascii.eqb Bool.eqb ret].
  fold lat lon. rewrite Hw, Ht, Hf, Ha, Hassess.
  f_equal. subst log4 log3 log2 log1.
  repeat (rewrite <- ?app_assoc; cbn [app]). reflexivity.
Qed.

(** X12: on a request body that is a JSON object the view always answers,
    with one of three statuses.  400: the city is missing or falsy, and
    nothing was called.  500: the geocoder raised, or found nothing, and
    only it was called, or the report could not be serialised; the body is
    [{'error': str(e)}].  200: the geocoder found the place and the body
    is the report with its six sections.  The calls made before the
    request stay in the log. *)
Theorem view_answers_200_400_or_500 (w : world) (data : dict) (log : list request) :
  let city := match field data "city" with Some c => c | None => VStr "" end in
  exists (payload : value) (status : Z) (calls : list request),
    App.analyze_location w (VDict data) log = (inr (payload, status), log ++ calls) /\
    ((status = 400%Z /\ truthy city = false /\ calls = [] /\
      payload = App.error_body "City name is required") \/
     (status = 500%Z /\ truthy city = true /\
      exists e, payload = App.error_body (exn_str e) /\
                ((geocode w log city = inl e /\ calls = [ Geocode city ]) \/
                 (geocode w log city = inr None /\ calls = [ Geocode city ] /\
                  e = Raise ValueError ("Could not find location: " ++ format w city)) \/
                 (exists rep, fst (BurnAgent.analyze_location w city log) = inr rep /\
                              jsonify_error w rep = Some e))) \/
     (status = 200%Z /\ truthy city = true /\
      jsonify_error w payload = None /\
      exists l we t f wa a, payload = report l we t f wa a)).
Proof.
  intros city. unfold App.analyze_location, io_bind, lift. cbn [get ret]. fold city.
  destruct (truthy city) eqn:T; cbn [negb].
  - unfold io_try, io_bind. cbv beta.
    destruct (geocode w log city) as [e | [location |]] eqn:Hgeo.
    + exists (App.error_body (exn_str e)), 500%Z, [ Geocode city ].
      assert (Hrun : BurnAgent.analyze_location w city log = (inl e, log ++ [ Geocode city ])).
      { unfold BurnAgent.analyze_location, _geocode_city, io_bind, call_geocode.
        rewrite Hgeo. reflexivity. }
      rewrite Hrun. split; [reflexivity |]. right. left.
      repeat split. exists e. split; [reflexivity |]. left. auto.
    + destruct (analyze_location_reports w city location log Hgeo)
        as (l & we & t & f & wa & a & calls & Hrun).
      rewrite Hrun. destruct (jsonify_error w (report l we t f wa a)) as [e |] eqn:J.
      * exists (App.error_body (exn_str e)), 500%Z, (Geocode city :: calls).
        split; [reflexivity |]. right. left. repeat split.
        exists e. split; [reflexivity |]. right. right.
        exists (report l we t f wa a). auto.
      * exists (report l we t f wa a), 200%Z, (Geocode city :: calls).
        split; [reflexivity |]. right. right. repeat split; [exact J |].
        exists l, we, t, f, wa, a. reflexivity.
    + set (e := Raise ValueError ("Could not find location: " ++ format w city)).
      exists (App.error_body (exn_str e)), 500%Z, [ Geocode city ].
      assert (Hrun : BurnAgent.analyze_location w city log = (inl e, log ++ [ Geocode city ])).
      { unfold BurnAgent.analyze_location, _geocode_city, io_bind, call_geocode.
        rewrite Hgeo. reflexivity. }
      rewrite Hrun. split; [reflexivity |]. right. left.
      repeat split. exists e. split; [reflexivity |]. right. left. auto.
  - exists (App.error_body "City name is required"), 400%Z, [].
    rewrite app_nil_r. split; [reflexivity |]. left. auto.
Qed.

(** X13: a request body that is not a JSON object (null, a list, a
    string, a number) is not answered by the view: [data.get] raises
    AttributeError before the city is looked at, outside the [try], and
    nothing is called. *)
Theorem view_raises_on_a_body_that_is_no_object
    (w : world) (data : value) (log : list request) :
  isinstance_dict data = false ->
  App.analyze_location w data log
  = (inl (Raise AttributeError
            ("'" ++ type_name data ++ "' object has no attribute 'get'")), log).
Proof.
  intros H. unfold App.analyze_location, io_bind, lift.
  destruct data; try discriminate H; reflexivity.
Qed.

(** X13 on the body [null]. *)
Lemma view_raises_on_a_body_that_is_no_object_witness :
  App.analyze_location nowhere VNone []
  = (inl (Raise AttributeError "'NoneType' object has no attribute 'get'"), []).
Proof.
  exact (view_raises_on_a_body_that_is_no_object nowhere VNone [] eq_refl).
Defined.

(** ** What the assessment reads *)

(** X14: the assessment of a weather report reads the temperature, the
    humidity and the wind speed of the report's first period and nothing
    else: two reports without an 'error' key whose first periods agree on
    these three keys are assessed alike, whatever their later periods
    hold. *)
Theorem assessment_reads_the_first_period
    (weather_data weather_data' first first' : dict) (later later' : list value) :
  field weather_data "error" = None ->
  field weather_data' "error" = None ->
  field weather_data "forecast" = Some (VList (VDict first :: later)) ->
  field weather_data' "forecast" = Some (VList (VDict first' :: later')) ->
  field first "temperature" = field first' "temperature" ->
  field first "humidity" = field first' "humidity" ->
  field first "wind_speed" = field first' "wind_speed" ->
  _assess_burn_conditions (VDict weather_data)
  = _assess_burn_conditions (VDict weather_data').
Proof.
  intros He He' Hf Hf' Ht Hh Hw.
  unfold _assess_burn_conditions. cbn [py_in bind ret]. rewrite He, He'.
  cbn [bind ret]. unfold compute_concerns. cbn [getitem]. rewrite Hf, Hf'.
  cbn [bind ret getindex nth_error getitem get]. rewrite Ht, Hh, Hw. reflexivity.
Qed.

(** X14 on two reports of which one has a hot second period. *)
Lemma assessment_reads_the_first_period_witness :
  _assess_burn_conditions (VDict (example_report "5 mph" 60 70))
  = _assess_burn_conditions
      (VDict [ (VStr "forecast",
                VList [ VDict [ (VStr "wind_speed", VStr "5 mph");
                                (VStr "humidity", VInt 60);
                                (VStr "temperature", VInt 70) ];
                        VDict [ (VStr "wind_speed", VStr "30 mph");
                                (VStr "humidity", VInt 10);
                                (VStr "temperature", VInt 99) ] ]) ]).
Proof.
  eapply assessment_reads_the_first_period; reflexivity.
Defined.

(** ** Required responses *)

(** X15: the hourly periods are looked up before the first period is
    read: when the hourly response does not hold them, the forecast report
    fails with the exception of that lookup, also for a forecast whose
    periods all have a humidity of their own, or that has no period. *)
Theorem hourly_periods_are_required
    (forecast_data hourly_data : value) (periods : list value) (e : exn) :
  periods_list forecast_data periods ->
  hourly_periods_of hourly_data = inl e ->
  normalize_forecast forecast_data hourly_data = inl e.
Proof.
  intros (props & Hprops & Hperiods) Hh. unfold normalize_forecast.
  rewrite Hprops. cbn [bind]. rewrite Hperiods. cbn [bind slice ret].
  unfold hourly_periods_of in Hh.
  destruct (getitem hourly_data "properties") as [e1 | hprops]; cbn [bind] in Hh |- *.
  - exact Hh.
  - rewrite Hh. reflexivity.
Qed.

(** X15 on an hourly response without 'properties'. *)
Lemma hourly_periods_are_required_witness :
  normalize_forecast (feed [ humid "Today" 40 ]) (VDict [])
  = inl (Raise KeyError "'properties'").
Proof.
  apply (hourly_periods_are_required _ _ [ humid "Today" 40 ]).
  - eexists. split; reflexivity.
  - reflexivity.
Defined.
